(** * better-json-serializer: the plugin-mediated codec pipeline

    A shallow embedding of [src/index.ts] (class [BetterJSONSerializer]) and
    of the two primitives of the host format layer it drives
    ([JSON.stringify] with a replacer function, [JSON.parse] with a reviver
    function), followed by the properties of the specification.

    Conventions of the embedding.
    - A JavaScript exception is a value of [exn] (its constructor and its
      [message]); code that may throw returns [result A].
    - A JSON text is represented by the document tree it denotes ([json]);
      rendering characters and indentation belong to the format layer and
      play no part in what follows.
    - Runtime values are trees ([value]); finite doubles are represented by
      integers, the code never computes on them.
    - An object carries what [constructor.name] reads on it; what
      [JSON.parse] and object literals build is of class Object, and there
      an own property named [constructor] decides. The names an object
      inherits are those of the prototypes of Object and Array (ES2023);
      the methods of other classes are not modelled, but for [toJSON].
    - The properties of an object are held in the order the host enumerates
      them: array indices in ascending order, then the other names in the
      order of their creation. An array may hold nothing at an index, once
      an element has been deleted.
    - A function is its name and what a call of it returns; of the calls a
      function may receive, the code only makes that of [toJSON].
    - The configuration object is a JavaScript object like any other: next
      to its three declared properties it has a prototype, which
      [setConfig] may replace, and the properties [setConfig] adds to it.
    - The call stack of the host is finite: the traversal of
      [JSON.stringify] takes the depth it may reach as [fuel] and throws a
      [RangeError] beyond it. Where exactly a host runs out of stack is not
      determined; the properties rely on the class of the error only.
    - [to_string] is the conversion of a template literal for the common
      values; numbers beyond 1e21 and host objects such as dates and regular
      expressions print differently in a host. Message text only. *)

From stdpp Require Import gmap strings list fin_maps pretty.

Local Open Scope string_scope.
Set Warnings "-register-all".

(** ** Exceptions and fallible computations *)

Inductive error_name :=
  | Error | EvalError | TypeError | ReferenceError | SyntaxError | RangeError.

Record exn := Exn { ename : error_name; message : string }.

Inductive result (A : Type) :=
  | Ok (a : A)
  | Throw (e : exn).
Arguments Ok {A} a.
Arguments Throw {A} e.

Global Instance result_ret : MRet result := fun _ a => Ok a.

Global Instance result_bind : MBind result := fun _ _ k m =>
  match m with
  | Ok a => k a
  | Throw e => Throw e
  end.

(** [try { m } catch (error) { throw h(error) }] *)
Definition try_catch {A} (m : result A) (h : exn → exn) : result A :=
  match m with
  | Ok a => Ok a
  | Throw e => Throw (h e)
  end.

Definition LF : string := String (Ascii.ascii_of_nat 10) EmptyString.

(** ** Runtime values *)

Inductive number :=
  | NFin (z : Z)
  | NInfinity
  | NNegInfinity
  | NNaN.

(** What [source.constructor.name] reads on an object: a string, something
    that is no string, or nothing at all when the constructor is [null] or
    [undefined] (the reading throws). *)
Inductive name_reading :=
  | Named (s : string)
  | NotAString
  | Unreadable.

Coercion Named : string >-> name_reading.

(** [VArr elems]: an array; [VEmpty] stands where it holds no element.
    [VObj ctor props]: an object with its own enumerable properties (data
    properties that can be written) in the order of enumeration, on which
    [constructor.name] reads [ctor]: the name of its class, unless it has
    an own property named [constructor]; its class gives it no [toJSON]
    method.
    [VHost ctor slots tojson]: a host object ([Set], [Map], [Date],
    [RegExp], ...; not the wrapper of a primitive) with no own enumerable
    property, its internal state [slots], and the result of its [toJSON]
    method when it has one.
    [VFunction name returns]: a function, its name and what a call of it
    returns.
    [VEmpty]: no value, what an array holds at an index whose element has
    been deleted; only ever an element of an array, it reads as
    [undefined]. *)
Inductive value :=
  | VUndefined
  | VNull
  | VBool (b : bool)
  | VNum (n : number)
  | VStr (s : string)
  | VBigInt (z : Z)
  | VArr (elems : list value)
  | VObj (ctor : name_reading) (props : list (string * value))
  | VHost (ctor : string) (slots : value) (tojson : option value)
  | VFunction (name : string) (returns : value)
  | VEmpty.

(** The key under which an array element is visited: its index in decimal. *)
Definition index_key (i : nat) : string := pretty i.

(** ** JSON documents *)

Inductive json :=
  | JNull
  | JBool (b : bool)
  | JNum (z : Z)
  | JStr (s : string)
  | JArr (elems : list json)
  | JObj (members : list (string * json)).

(** Induction over documents, with the hypothesis on every child. *)
Fixpoint json_nested_ind (P : json → Prop)
    (HNull : P JNull) (HBool : ∀ b, P (JBool b)) (HNum : ∀ z, P (JNum z))
    (HStr : ∀ s, P (JStr s))
    (HArr : ∀ l, Forall P l → P (JArr l))
    (HObj : ∀ members, Forall (fun m => P m.2) members → P (JObj members))
    (j : json) : P j :=
  match j with
  | JNull => HNull
  | JBool b => HBool b
  | JNum z => HNum z
  | JStr s => HStr s
  | JArr l =>
      HArr l ((fix elements (l : list json) : Forall P l :=
                 match l with
                 | [] => List.Forall_nil P
                 | x :: rest =>
                     List.Forall_cons P x rest
                       (json_nested_ind P HNull HBool HNum HStr HArr HObj x)
                       (elements rest)
                 end) l)
  | JObj members =>
      HObj members
        ((fix fields (ms : list (string * json)) : Forall (fun m => P m.2) ms :=
            match ms with
            | [] => List.Forall_nil _
            | m :: rest =>
                List.Forall_cons (fun m => P m.2) m rest
                  (json_nested_ind P HNull HBool HNum HStr HArr HObj m.2)
                  (fields rest)
            end) members)
  end.

(** What [JSON.parse] is given: a well-formed document or anything else. *)
Inductive text :=
  | Doc (j : json)
  | Malformed.

(** ** Property access *)

Fixpoint lookup_prop {A} (k : string) (props : list (string * A)) : option A :=
  match props with
  | [] => None
  | (k', x) :: rest => if decide (k' = k) then Some x else lookup_prop k rest
  end.

(** [CreateDataProperty]: overwrite in place or append. *)
Fixpoint set_prop {A} (k : string) (x : A) (props : list (string * A))
  : list (string * A) :=
  match props with
  | [] => [(k, x)]
  | (k', y) :: rest =>
      if decide (k' = k) then (k', x) :: rest else (k', y) :: set_prop k x rest
  end.

(** The element an array holds under the index [k], if any. *)
Fixpoint lookup_index (k : string) (i : nat) (l : list value) : option value :=
  match l with
  | [] => None
  | x :: rest =>
      if decide (index_key i = k)
      then match x with
           | VEmpty => None
           | _ => Some x
           end
      else lookup_index k (S i) rest
  end.

(** The indices at which an array holds an element, from [i] on. *)
Fixpoint array_keys (i : nat) (l : list value) : list string :=
  match l with
  | [] => []
  | VEmpty :: rest => array_keys (S i) rest
  | _ :: rest => index_key i :: array_keys (S i) rest
  end.

(** What an array reads at a place: [undefined] where it holds nothing. *)
Definition element (x : value) : value :=
  match x with
  | VEmpty => VUndefined
  | _ => x
  end.

(** [Object.keys(v)] *)
Definition keys (v : value) : list string :=
  match v with
  | VArr l => array_keys 0 l
  | VObj _ props => props.*1
  | _ => []
  end.

(** The names of [Object.prototype]. *)
Definition Object_prototype : list string :=
  ["constructor"; "__defineGetter__"; "__defineSetter__"; "hasOwnProperty";
   "__lookupGetter__"; "__lookupSetter__"; "isPrototypeOf";
   "propertyIsEnumerable"; "toString"; "valueOf"; "__proto__";
   "toLocaleString"].

(** The names of [Array.prototype] that [Object.prototype] has not. *)
Definition Array_prototype : list string :=
  ["at"; "concat"; "copyWithin"; "fill"; "find"; "findIndex"; "findLast";
   "findLastIndex"; "lastIndexOf"; "pop"; "push"; "reverse"; "shift";
   "unshift"; "slice"; "sort"; "splice"; "includes"; "indexOf"; "join";
   "keys"; "entries"; "values"; "forEach"; "filter"; "flat"; "flatMap";
   "map"; "every"; "some"; "reduce"; "reduceRight"; "toReversed";
   "toSorted"; "toSpliced"; "with"].

(** The names [v] answers to without having them among its own enumerable
    properties: the length of an array and what the prototypes give. *)
Definition inherited_names (v : value) : list string :=
  match v with
  | VArr _ => "length" :: Array_prototype ++ Object_prototype
  | VObj _ _ | VHost _ _ _ => Object_prototype
  | _ => []
  end.

(** The name of the class of [v], for the [constructor] it inherits: what
    [constructor.name] reads unless the object has a [constructor] of its
    own, as only objects of class Object are taken to have. *)
Definition class_name (v : value) : string :=
  match v with
  | VArr _ => "Array"
  | VObj (Named c) props =>
      match lookup_prop "constructor" props with
      | Some _ => "Object"
      | None => c
      end
  | VHost c _ _ => c
  | _ => "Object"
  end.

(** What an inherited name reads as. *)
Definition inherited_value (v : value) (k : string) : value :=
  if decide (k = "length") then
    match v with
    | VArr l => VNum (NFin (Z.of_nat (length l)))
    | _ => VUndefined
    end
  else if decide (k = "__proto__") then
    match v with
    | VArr _ => VArr []
    | _ => VObj (Named (class_name v)) []
    end
  else if decide (k = "constructor") then VFunction (class_name v) VUndefined
  else VFunction k VUndefined.

(** [k in v], for [v] an object *)
Definition has_property (k : string) (v : value) : bool :=
  bool_decide (k ∈ keys v) || bool_decide (k ∈ inherited_names v).

(** [v[k]]: an own property first, then an inherited one. Of a primitive
    the code only reads names that no primitive has ([version], [type],
    [value], [name]). *)
Definition get (v : value) (k : string) : value :=
  let inherited :=
    if bool_decide (k ∈ inherited_names v) then inherited_value v k
    else VUndefined in
  match v with
  | VArr l => default inherited (lookup_index k 0 l)
  | VObj _ props => default inherited (lookup_prop k props)
  | VHost _ _ _ => inherited
  | VFunction n _ => if decide (k = "name") then VStr n else VUndefined
  | _ => VUndefined
  end.

(** [x.name], for [x] what [constructor] holds *)
Definition reading_of (x : value) : name_reading :=
  match x with
  | VUndefined | VNull | VEmpty => Unreadable
  | _ =>
      match get x "name" with
      | VStr s => Named s
      | _ => NotAString
      end
  end.

(** What [constructor.name] reads on an object of class [class] with the
    own properties [props]. *)
Definition object_reading (class : string) (props : list (string * value))
  : name_reading :=
  match lookup_prop "constructor" props with
  | Some x => reading_of x
  | None => Named class
  end.

(** An object of class Object: a literal, or what [JSON.parse] builds. *)
Definition plain (props : list (string * value)) : value :=
  VObj (object_reading "Object" props) props.

(** An array index: a decimal numeral in canonical form below 2^32 - 1. *)
Definition digit_of (a : Ascii.ascii) : option N :=
  let n := Ascii.N_of_ascii a in
  if (48 <=? n)%N && (n <=? 57)%N then Some (n - 48)%N else None.

Fixpoint parse_digits (s : string) (acc : N) : option N :=
  match s with
  | EmptyString => Some acc
  | String a rest =>
      match digit_of a with
      | Some d => parse_digits rest (10 * acc + d)%N
      | None => None
      end
  end.

Definition index_of_key (k : string) : option N :=
  match k with
  | EmptyString => None
  | _ =>
      match parse_digits k 0 with
      | Some n =>
          if bool_decide (pretty n = k) && (n <? 4294967295)%N
          then Some n else None
      | None => None
      end
  end.

(** A new array index takes its place among the indices. *)
Fixpoint insert_index {A} (n : N) (k : string) (x : A)
    (props : list (string * A)) : list (string * A) :=
  match props with
  | [] => [(k, x)]
  | (k', y) :: rest =>
      match index_of_key k' with
      | Some n' =>
          if (n' <? n)%N then (k', y) :: insert_index n k x rest
          else (k, x) :: (k', y) :: rest
      | None => (k, x) :: (k', y) :: rest
      end
  end.

(** [CreateDataProperty] on an ordinary object: a property that exists is
    overwritten where it is; a new one is enumerated after the others,
    unless it is an array index. *)
Definition define_property {A} (k : string) (x : A)
    (props : list (string * A)) : list (string * A) :=
  if bool_decide (k ∈ props.*1) then set_prop k x props
  else
    match index_of_key k with
    | Some n => insert_index n k x props
    | None => (props ++ [(k, x)])%list
    end.

(** [typeof v === 'object'] *)
Definition typeof_object (v : value) : bool :=
  match v with
  | VNull | VArr _ | VObj _ _ | VHost _ _ _ => true
  | _ => false
  end.

(** ** String conversion, as in a template literal *)

Definition number_to_string (n : number) : string :=
  match n with
  | NFin z => pretty z
  | NInfinity => "Infinity"
  | NNegInfinity => "-Infinity"
  | NNaN => "NaN"
  end.

Fixpoint join (sep : string) (l : list string) : string :=
  match l with
  | [] => ""
  | [s] => s
  | s :: rest => s ++ sep ++ join sep rest
  end.

Fixpoint to_string (v : value) : string :=
  match v with
  | VUndefined => "undefined"
  | VNull => "null"
  | VBool true => "true"
  | VBool false => "false"
  | VNum n => number_to_string n
  | VStr s => s
  | VBigInt z => pretty z
  | VArr l =>
      join "," (map (fun x => match x with
                              | VUndefined | VNull | VEmpty => ""
                              | _ => to_string x
                              end) l)
  | VObj _ _ => "[object Object]"
  | VHost c _ _ => "[object " ++ c ++ "]"
  | VFunction n _ => "function " ++ n ++ "() { [native code] }"
  | VEmpty => "undefined"
  end.

(** [typeof v] *)
Definition typeof (v : value) : string :=
  match v with
  | VUndefined | VEmpty => "undefined"
  | VBool _ => "boolean"
  | VNum _ => "number"
  | VStr _ => "string"
  | VBigInt _ => "bigint"
  | VFunction _ _ => "function"
  | VNull | VArr _ | VObj _ _ | VHost _ _ _ => "object"
  end.

(** ** The format layer: [JSON.stringify] and [JSON.parse] *)

(** One step of [SerializeJSONArray]: an element that renders to nothing is
    written as [null]. *)
Fixpoint serialize_elements (f : string → value → result (option json))
    (i : nat) (l : list value) : result (list json) :=
  match l with
  | [] => Ok []
  | x :: rest =>
      r ← f (index_key i) (element x);
      rest' ← serialize_elements f (S i) rest;
      Ok (default JNull r :: rest')
  end.

(** One step of [SerializeJSONObject]: a property that renders to nothing
    is left out. *)
Fixpoint serialize_members (f : string → value → result (option json))
    (props : list (string * value)) : result (list (string * json)) :=
  match props with
  | [] => Ok []
  | (k, x) :: rest =>
      r ← f k x;
      rest' ← serialize_members f rest;
      Ok (match r with
          | Some j => (k, j) :: rest'
          | None => rest'
          end)
  end.

(** [InternalizeJSONProperty] on the elements of an array; an element
    revived to [undefined] is deleted, and the array holds nothing there. *)
Fixpoint revive_elements (f : string → value → result value)
    (i : nat) (l : list value) : result (list value) :=
  match l with
  | [] => Ok []
  | x :: rest =>
      x' ← f (index_key i) x;
      rest' ← revive_elements f (S i) rest;
      Ok (match x' with
          | VUndefined => VEmpty :: rest'
          | _ => x' :: rest'
          end)
  end.

(** [InternalizeJSONProperty] on the properties of an object; a property
    revived to [undefined] is deleted. *)
Fixpoint revive_members (f : string → value → result value)
    (props : list (string * value)) : result (list (string * value)) :=
  match props with
  | [] => Ok []
  | (k, x) :: rest =>
      x' ← f k x;
      rest' ← revive_members f rest;
      Ok (match x' with
          | VUndefined => rest'
          | _ => (k, x') :: rest'
          end)
  end.

(** The [toJSON] step that precedes the replacer: the method is called when
    the value has one, inherited or held as a property. *)
Definition apply_toJSON (v : value) : value :=
  match v with
  | VHost _ _ (Some t) => t
  | VObj _ props =>
      match lookup_prop "toJSON" props with
      | Some (VFunction _ returns) => returns
      | _ => v
      end
  | _ => v
  end.

Definition stack_overflow : exn :=
  Exn RangeError "Maximum call stack size exceeded".

(** [SerializeJSONProperty] with a replacer function. The replacer's answer
    is what gets traversed, so the recursion is bounded by the depth of the
    call stack, [fuel]; [None] is the [undefined] rendering. *)
Fixpoint SerializeJSONProperty (fuel : nat)
    (replacer : string → value → result value)
    (key : string) (val : value) : result (option json) :=
  match fuel with
  | O => Throw stack_overflow
  | S fuel' =>
      v ← replacer key (apply_toJSON val);
      match v with
      | VUndefined | VEmpty => Ok None
      | VNull => Ok (Some JNull)
      | VBool b => Ok (Some (JBool b))
      | VNum (NFin z) => Ok (Some (JNum z))
      | VNum _ => Ok (Some JNull)
      | VStr s => Ok (Some (JStr s))
      | VBigInt _ => Throw (Exn TypeError "Do not know how to serialize a BigInt")
      | VArr l =>
          js ← serialize_elements (SerializeJSONProperty fuel' replacer) 0 l;
          Ok (Some (JArr js))
      | VObj _ props =>
          ms ← serialize_members (SerializeJSONProperty fuel' replacer) props;
          Ok (Some (JObj ms))
      | VHost _ _ _ => Ok (Some (JObj []))
      | VFunction _ _ => Ok None
      end
  end.

(** [JSON.stringify(value, replacer)]: the root is visited under key [""]. *)
Definition JSON_stringify (fuel : nat) (value0 : value)
    (replacer : string → value → result value) : result (option json) :=
  SerializeJSONProperty fuel replacer "" value0.

(** The structural parse: the tree a document denotes. A repeated member
    name overwrites the earlier one; the members are enumerated as the host
    does. *)
Fixpoint from_json (j : json) : value :=
  match j with
  | JNull => VNull
  | JBool b => VBool b
  | JNum z => VNum (NFin z)
  | JStr s => VStr s
  | JArr l => VArr (map from_json l)
  | JObj members =>
      plain (foldl (fun acc m => define_property m.1 (from_json m.2) acc)
                   [] members)
  end.

(** What [constructor.name] reads on an object once its properties [props]
    have become [props']: the class decides as before, unless the object
    had an own property named [constructor]; it is then of class Object, as
    all that [JSON.parse] builds. *)
Definition retag (c : name_reading) (props props' : list (string * value))
  : name_reading :=
  match lookup_prop "constructor" props with
  | Some _ => object_reading "Object" props'
  | None => c
  end.

(** [InternalizeJSONProperty]: children first, then the node itself; where
    the holder holds nothing, [undefined] is read. *)
Fixpoint internalize (reviver : string → value → result value)
    (name : string) (val : value) : result value :=
  match val with
  | VArr l =>
      l' ← revive_elements (internalize reviver) 0 l;
      reviver name (VArr l')
  | VObj c props =>
      props' ← revive_members (internalize reviver) props;
      reviver name (VObj (retag c props props') props')
  | VEmpty => reviver name VUndefined
  | _ => reviver name val
  end.

(** [JSON.parse(text, reviver)] *)
Definition JSON_parse (t : text) (reviver : string → value → result value)
  : result value :=
  match t with
  | Malformed => Throw (Exn SyntaxError "Unexpected token in JSON")
  | Doc j => internalize reviver "" (from_json j)
  end.

(** The text [JSON.parse] receives when handed the outcome of
    [JSON.stringify]: [undefined] reads as the word, which is no document. *)
Definition text_of (out : option json) : text :=
  match out with
  | Some j => Doc j
  | None => Malformed
  end.

(** ** The serializer *)

Record IConfiguration := {
  allowPluginsOverwrite : bool;
  serializedObjectIdentifier : string;
  defaultIndentation : number;
}.

(** A user-supplied function of a key and a value: a plugin's [serialize] or
    [deserialize], a replacer, a reviver. *)
Definition hook := string → value → result value.

(** Modelled from the spec: the class [Plugin] of [./Plugin], of which the
    serializer reads the field [name] and calls the methods [serialize] and
    [deserialize]. *)
Record Plugin := {
  name : string;
  serialize : hook;
  deserialize : hook;
}.

(** The instance. Of the object [this.conf], [conf] holds the three
    declared properties, [conf_added] the properties that [setConfig] has
    added to it since, and [conf_prototype] its prototype. *)
Record BetterJSONSerializer := {
  conf : IConfiguration;
  conf_added : list (string * value);
  conf_prototype : value;
  plugins : gmap string Plugin;
}.

(** [Object.prototype], seen as an object of class Object that has no
    enumerable property. *)
Definition Object_prototype_object : value := VObj (Named "Object") [].

Definition initial : BetterJSONSerializer := {|
  conf := {| allowPluginsOverwrite := false;
             serializedObjectIdentifier := "_@serialized-object";
             defaultIndentation := NFin 0 |};
  conf_added := [];
  conf_prototype := Object_prototype_object;
  plugins := ∅;
|}.

Definition with_conf (c : IConfiguration) (self : BetterJSONSerializer) :=
  {| conf := c; conf_added := conf_added self;
     conf_prototype := conf_prototype self; plugins := plugins self |}.

Definition with_conf_added (added : list (string * value))
    (self : BetterJSONSerializer) :=
  {| conf := conf self; conf_added := added;
     conf_prototype := conf_prototype self; plugins := plugins self |}.

Definition with_conf_prototype (prototype : value) (self : BetterJSONSerializer) :=
  {| conf := conf self; conf_added := conf_added self;
     conf_prototype := prototype; plugins := plugins self |}.

Definition with_plugins (ps : gmap string Plugin) (self : BetterJSONSerializer) :=
  {| conf := conf self; conf_added := conf_added self;
     conf_prototype := conf_prototype self; plugins := ps |}.

(** *** [setConfig] and [getConfig] *)

(** [__proto__] is an accessor of [Object.prototype]: on an object whose
    prototype [prototype] holds no property of that name, it reads and
    writes the prototype of the object. *)
Definition reaches_accessor (key : string) (prototype : value) : bool :=
  bool_decide (key = "__proto__") && negb (bool_decide (key ∈ keys prototype)).

(** [this.conf[key]], when [key in this.conf]: a property of the object,
    or what its prototype chain gives. *)
Definition conf_get (self : BetterJSONSerializer) (key : string) : option value :=
  if decide (key = "allowPluginsOverwrite")
  then Some (VBool (allowPluginsOverwrite (conf self)))
  else if decide (key = "serializedObjectIdentifier")
  then Some (VStr (serializedObjectIdentifier (conf self)))
  else if decide (key = "defaultIndentation")
  then Some (VNum (defaultIndentation (conf self)))
  else
    match lookup_prop key (conf_added self) with
    | Some x => Some x
    | None =>
        if has_property key (conf_prototype self) then
          Some (if reaches_accessor key (conf_prototype self)
                then conf_prototype self
                else get (conf_prototype self) key)
        else None
    end.

(** A write to one of the three declared properties, for [v] of the type of
    the stored value. *)
Definition conf_set (c : IConfiguration) (key : string) (v : value) : IConfiguration :=
  match v with
  | VBool b =>
      if decide (key = "allowPluginsOverwrite") then
        {| allowPluginsOverwrite := b;
           serializedObjectIdentifier := serializedObjectIdentifier c;
           defaultIndentation := defaultIndentation c |}
      else c
  | VStr s =>
      if decide (key = "serializedObjectIdentifier") then
        {| allowPluginsOverwrite := allowPluginsOverwrite c;
           serializedObjectIdentifier := s;
           defaultIndentation := defaultIndentation c |}
      else c
  | VNum n =>
      if decide (key = "defaultIndentation") then
        {| allowPluginsOverwrite := allowPluginsOverwrite c;
           serializedObjectIdentifier := serializedObjectIdentifier c;
           defaultIndentation := n |}
      else c
  | _ => c
  end.

(** [this.conf[key] = v], for a key found on the object and [v] of the type
    of what it reads as. A property of the object is overwritten;
    [__proto__], where it reaches the accessor, replaces the prototype by an
    object or by [null]; any other name, found on the prototype chain,
    becomes a property of the object. *)
Definition conf_assign (key : string) (v : value) (self : BetterJSONSerializer)
  : BetterJSONSerializer :=
  if bool_decide (key ∈ ["allowPluginsOverwrite"; "serializedObjectIdentifier";
                         "defaultIndentation"])
  then with_conf (conf_set (conf self) key v) self
  else if negb (bool_decide (key ∈ (conf_added self).*1))
          && reaches_accessor key (conf_prototype self)
  then if typeof_object v then with_conf_prototype v self else self
  else with_conf_added (define_property key v (conf_added self)) self.

(** A method that updates the instance: the instance afterwards goes with
    the outcome, also when the method throws. *)
Definition method (A : Type) : Type := BetterJSONSerializer * result A.

Section ForEach.
Context {A : Type} (f : A → BetterJSONSerializer → method ()).

(** [array.forEach((x) => f(x))], left when a call throws *)
Fixpoint forEach (l : list A) (self : BetterJSONSerializer) : method () :=
  match l with
  | [] => (self, Ok ())
  | x :: rest =>
      match f x self with
      | (self', Ok _) => forEach rest self'
      | (self', Throw e) => (self', Throw e)
      end
  end.
End ForEach.

(** [setConfig(configurationProperty, value)] *)
Definition setConfig (key : string) (v : value) (self : BetterJSONSerializer)
  : method () :=
  match conf_get self key with
  | None =>
      (self, Throw (Exn ReferenceError
         ("Configuration property '" ++ key ++ "' does not exist.")))
  | Some stored =>
      if decide (typeof v = typeof stored)
      then (conf_assign key v self, Ok ())
      else (self, Throw (Exn TypeError
         ("Invalid type for configuration property '" ++ key ++
          "', expected '" ++ typeof stored ++ "'.")))
  end.

(** [setConfig(configuration)]: one call per entry, in order. *)
Definition setConfig_all (entries : list (string * value))
  : BetterJSONSerializer → method () :=
  forEach (fun entry => setConfig entry.1 entry.2) entries.

(** The properties of [this.conf] as they are enumerated: the added ones
    that are array indices come first. *)
Definition conf_entries (self : BetterJSONSerializer) : list (string * value) :=
  (filter (fun kx => is_Some (index_of_key kx.1)) (conf_added self)
   ++ [("allowPluginsOverwrite", VBool (allowPluginsOverwrite (conf self)));
       ("serializedObjectIdentifier",
        VStr (serializedObjectIdentifier (conf self)));
       ("defaultIndentation", VNum (defaultIndentation (conf self)))]
   ++ filter (fun kx => ¬ is_Some (index_of_key kx.1)) (conf_added self))%list.

(** [{ ...this.conf }] as a value: a new object of class Object that
    receives the properties of the configuration. *)
Definition conf_copy (self : BetterJSONSerializer) : value :=
  plain (conf_entries self).

Definition getConfig (configurationProperty : option string)
    (self : BetterJSONSerializer) : result value :=
  match configurationProperty with
  | None => Ok (conf_copy self)
  | Some key =>
      match conf_get self key with
      | None =>
          Throw (Exn ReferenceError
            ("Configuration property '" ++ key ++ "' does not exist."))
      | Some v => Ok v
      end
  end.

(** *** [use] *)

(** What [use] may be handed: a plugin, an iterable of such arguments, or
    an object that is neither. *)
Inductive use_argument :=
  | APlugin (p : Plugin)
  | APlugins (l : list use_argument)
  | ANotAPlugin.

Definition duplicate_plugin (n : string) : exn :=
  Exn Error ("Unable to add plugin for '" ++ n ++
    "', a plugin using this constructor name already exist and plugins override is disabled.").

Definition use_plugin (p : Plugin) (self : BetterJSONSerializer) : method () :=
  if bool_decide (is_Some (plugins self !! name p))
     && negb (allowPluginsOverwrite (conf self))
  then (self, Throw (duplicate_plugin (name p)))
  else (with_plugins (<[name p := p]> (plugins self)) self, Ok ()).

Fixpoint use (pluginOrPlugins : use_argument) (self : BetterJSONSerializer)
  : method () :=
  match pluginOrPlugins with
  | APlugins l => forEach use l self
  | ANotAPlugin => (self, Throw (Exn TypeError "The plugin is invalid."))
  | APlugin p => use_plugin p self
  end.

(** *** [stringify] *)

(** The name of the constructor of [source], after the special cases:
    what [source.constructor.name] reads. *)
Definition constructorName (source : value) : name_reading :=
  match source with
  | VUndefined | VEmpty => "undefined"
  | VNull => "null"
  | VNum NInfinity => "infinity"
  | VNum NNaN => "nan"
  | VNum _ => "Number"
  | VBool _ => "Boolean"
  | VStr _ => "String"
  | VBigInt _ => "BigInt"
  | VArr _ => "Array"
  | VObj c _ => c
  | VHost c _ _ => c
  | VFunction _ _ => "Function"
  end.

(** The formated serialized object. *)
Definition envelope (marker type : string) (serializedValue : value) : value :=
  plain [(marker,
          plain [("version", VNum (NFin 1));
                 ("type", VStr type);
                 ("value", serializedValue)])].

Definition replacer_failed (key : string) (val : value) : exn :=
  Exn EvalError
    ("An error occured while calling the replacer function on key='" ++ key ++
     "' and '" ++ to_string val ++ "'.").

Definition serialize_failed (type : string) (error : exn) : exn :=
  Exn EvalError
    ("Error while serializing type '" ++ type ++ "'." ++ LF ++ LF ++ message error).

Definition constructor_unreadable : exn :=
  Exn TypeError "Cannot read properties of null (reading 'name')".

(** The function [stringify] hands to [JSON.stringify]. *)
Definition stringify_visitor (self : BetterJSONSerializer)
    (replacer : option hook) (key : string) (val : value) : result value :=
  source ← match replacer with
           | Some r => try_catch (r key val) (fun _ => replacer_failed key val)
           | None => Ok val
           end;
  match constructorName source with
  | Unreadable => Throw constructor_unreadable
  | NotAString => Ok source
  | Named type =>
      match plugins self !! type with
      | None => Ok source
      | Some matchingPlugin =>
          serializedValue ←
            try_catch (serialize matchingPlugin key source) (serialize_failed type);
          Ok (envelope (serializedObjectIdentifier (conf self)) type serializedValue)
      end
  end.

Definition stringify_failed (error : exn) : exn :=
  Exn EvalError ("Error while stringifying object." ++ LF ++ LF ++ message error).

(** [stringify(value, replacer)]; the indentation only changes the
    characters of the text. *)
Definition stringify (fuel : nat) (self : BetterJSONSerializer)
    (value0 : value) (replacer : option hook) : result (option json) :=
  try_catch (JSON_stringify fuel value0 (stringify_visitor self replacer))
            stringify_failed.

(** *** [parse] *)

Definition is_null (v : value) : bool :=
  match v with
  | VNull => true
  | _ => false
  end.

(** The test that opens the reviver of [parse]: [true] when the value is
    returned as raw. *)
Definition not_serialized (self : BetterJSONSerializer) (v : value) : bool :=
  negb (typeof_object v)
  || is_null v
  || negb (has_property (serializedObjectIdentifier (conf self)) v)
  || bool_decide (1 < length (keys v)).

(** [this.plugins.get(k)] for an arbitrary [k]: the keys are strings. *)
Definition plugins_get (ps : gmap string Plugin) (k : value) : option Plugin :=
  match k with
  | VStr s => ps !! s
  | _ => None
  end.

Definition unsupported_version (version : value) : exn :=
  Exn Error ("Unsupported serialization version '" ++ to_string version ++ "'.").

Definition deserialize_failed (type : value) (error : exn) : exn :=
  Exn EvalError
    ("Error while deserializing type '" ++ to_string type ++ "'." ++
     LF ++ LF ++ message error).

Definition reviver_failed (key : string) (deserializedValue : value) : exn :=
  Exn EvalError
    ("An error occured while calling the reviver function on key='" ++ key ++
     "' and '" ++ to_string deserializedValue ++ "'.").

Definition cannot_destructure (v : value) : exn :=
  Exn TypeError ("Cannot destructure '" ++ to_string v ++ "'.").

(** The function [parse] hands to [JSON.parse]. *)
Definition parse_visitor (self : BetterJSONSerializer)
    (reviver : option hook) (key : string) (v : value) : result value :=
  if not_serialized self v then Ok v
  else
    let serializedObject := get v (serializedObjectIdentifier (conf self)) in
    match serializedObject with
    | VUndefined | VNull => Throw (cannot_destructure serializedObject)
    | _ =>
        let version := get serializedObject "version" in
        let type := get serializedObject "type" in
        let serializedValue := get serializedObject "value" in
        match plugins_get (plugins self) type with
        | None => Ok serializedValue
        | Some matchingPlugin =>
            match version with
            | VNum (NFin 1) =>
                deserializedValue ←
                  try_catch (deserialize matchingPlugin key serializedValue)
                            (deserialize_failed type);
                match reviver with
                | Some r =>
                    try_catch (r key deserializedValue)
                              (fun _ => reviver_failed key deserializedValue)
                | None => Ok deserializedValue
                end
            | _ => Throw (unsupported_version version)
            end
        end
    end.

Definition parse_failed (error : exn) : exn :=
  Exn EvalError ("Error while parsing object." ++ LF ++ LF ++ message error).

Definition parse (self : BetterJSONSerializer) (t : text)
    (reviver : option hook) : result value :=
  try_catch (JSON_parse t (parse_visitor self reviver)) parse_failed.

(** [parse(stringify(value))], without replacer nor reviver *)
Definition round_trip (fuel : nat) (self : BetterJSONSerializer) (v : value)
  : result value :=
  out ← stringify fuel self v None;
  parse self (text_of out) None.

(** ** Objects by reference

    [getConfig()] answers with an object, which the caller may then write
    to. Objects of the shape of a configuration live in a store and are
    named by their location; the instance holds the location of its own. *)

Abbreviation loc := nat (only parsing).

Abbreviation store := (list IConfiguration) (only parsing).






(** ** Words of the specification *)

(** An envelope, as the specification describes the nodes that the reviver
    of [parse] unwraps: an object, not [null], whose properties are the
    marker key and no other. *)
Definition envelope_shaped (self : BetterJSONSerializer) (v : value) : Prop :=
  typeof_object v = true
  ∧ v ≠ VNull
  ∧ keys v = [serializedObjectIdentifier (conf self)].

(** The test of the reviver of [parse], in words: an object, not [null],
    on which the marker key is found, as its own or inherited, and that has
    at most one own enumerable property. *)
Definition recognised (self : BetterJSONSerializer) (v : value) : Prop :=
  typeof_object v = true
  ∧ v ≠ VNull
  ∧ (serializedObjectIdentifier (conf self) ∈ keys v
     ∨ serializedObjectIdentifier (conf self) ∈ inherited_names v)
  ∧ (length (keys v) ≤ 1)%nat.

(** A node as [JSON.parse] hands it to its reviver: a primitive, [null], an
    array, or an object of class Object. *)
Definition built_by_parse (v : value) : Prop :=
  match v with
  | VUndefined | VBigInt _ | VHost _ _ _ | VFunction _ _ | VEmpty => False
  | VObj c props => c = object_reading "Object" props
  | _ => True
  end.

(** The prototype of the configuration is [null], an array or an object of
    class Object, as [Object.prototype] is: the names it gives are those
    the model knows. *)
Definition plain_prototype (self : BetterJSONSerializer) : Prop :=
  built_by_parse (conf_prototype self).

(** The one version [parse] knows: the number [1]. *)
Definition version_1 (version : value) : bool :=
  match version with
  | VNum (NFin 1) => true
  | _ => false
  end.

(** What sits under the marker key of an envelope can be taken apart. *)
Definition destructurable (v : value) : Prop :=
  v ≠ VUndefined ∧ v ≠ VNull.

(** [visits f name val k v]: while [JSON.parse] internalizes [val], held
    under [name], it calls the reviver [f] on key [k] and value [v], every
    call before this one having returned. *)
Inductive visits (f : hook) : string → value → string → value → Prop :=
  | visits_array name l l' :
      revive_elements (internalize f) 0 l = Ok l' →
      visits f name (VArr l) name (VArr l')
  | visits_object name c props props' :
      revive_members (internalize f) props = Ok props' →
      visits f name (VObj c props) name (VObj (retag c props props') props')
  | visits_leaf name v :
      internalize f name v = f name v →
      visits f name v name v
  | visits_element name l1 x l2 l1' k v :
      revive_elements (internalize f) 0 l1 = Ok l1' →
      visits f (index_key (length l1)) x k v →
      visits f name (VArr (l1 ++ x :: l2)) k v
  | visits_member name c props1 kx x props2 props1' k v :
      revive_members (internalize f) props1 = Ok props1' →
      visits f kx x k v →
      visits f name (VObj c (props1 ++ (kx, x) :: props2)) k v.

(** [may_precede k' k]: a property [k] created after [k'] is enumerated
    after it. *)
Definition may_precede (k' k : string) : bool :=
  match index_of_key k with
  | None => true
  | Some n =>
      match index_of_key k' with
      | Some n' => (n' <? n)%N
      | None => false
      end
  end.

(** Names in the order the host enumerates them. *)
Fixpoint host_ordered (ks : list string) : bool :=
  match ks with
  | [] => true
  | k :: rest => forallb (may_precede k) rest && host_ordered rest
  end.

(** A document as [JSON.stringify] writes them: in every object the member
    names are distinct and in the order of enumeration. *)
Fixpoint canonical (j : json) : bool :=
  match j with
  | JArr l => forallb canonical l
  | JObj members =>
      bool_decide (NoDup members.*1)
      && host_ordered members.*1
      && forallb (fun m => canonical m.2) members
  | _ => true
  end.

(** What an envelope holds under the marker key once [parse] has revived
    its fields, the inner value having become [e]: a field revived to
    [undefined] is gone. *)
Definition serialized_object (version : Z) (type : string) (e : value) : value :=
  plain (("version", VNum (NFin version)) :: ("type", VStr type)
         :: match e with
            | VUndefined => []
            | _ => [("value", e)]
            end).

(** No plugin is registered for what [v] is classified as. *)
Definition unclaimed (self : BetterJSONSerializer) (v : value) : bool :=
  match constructorName v with
  | Named type => bool_decide (plugins self !! type = None)
  | NotAString => true
  | Unreadable => false
  end.

(** Plain data that the pipeline leaves alone: every node of the document
    is classified under an identifier without plugin and is no envelope,
    and the members of an object have distinct names. *)
Fixpoint untouched (self : BetterJSONSerializer) (j : json) : bool :=
  unclaimed self (from_json j)
  && not_serialized self (from_json j)
  && match j with
     | JArr l => forallb (untouched self) l
     | JObj members =>
         bool_decide (NoDup members.*1)
         && forallb (fun m => untouched self m.2) members
     | _ => true
     end.

(** The calls [JSON.stringify] nests to write a document. *)
Fixpoint height (j : json) : nat :=
  match j with
  | JArr l => S (foldr (fun x n => height x `max` n) 0 l)
  | JObj members => S (foldr (fun m n => height m.2 `max` n) 0 members)
  | _ => 1
  end.

(** ** Sample plugins and instances

    Plugins in the manner of the bundled ones, to run the definitions on. *)

(** Owns the host objects named [Set]: the elements go out as an array. *)
Definition sample_Set : Plugin := {|
  name := "Set";
  serialize := fun _ v =>
    match v with
    | VHost _ slots _ => Ok slots
    | _ => Throw (Exn TypeError "not a Set")
    end;
  deserialize := fun _ v => Ok (VHost "Set" v None);
|}.

(** A second plugin under the same name, which writes the size only. *)
Definition sample_Set_size : Plugin := {|
  name := "Set";
  serialize := fun _ v =>
    match v with
    | VHost _ (VArr l) _ => Ok (VNum (NFin (Z.of_nat (length l))))
    | _ => Throw (Exn TypeError "not a Set")
    end;
  deserialize := fun _ v => Ok (VHost "Set" (VArr []) None);
|}.

(** Owns the positive infinity: it goes out as a word. *)
Definition sample_infinity : Plugin := {|
  name := "infinity";
  serialize := fun _ _ => Ok (VStr "inf");
  deserialize := fun _ _ => Ok (VNum NInfinity);
|}.

Definition a_Set (l : list value) : value := VHost "Set" (VArr l) None.

Definition with_Set : BetterJSONSerializer :=
  with_plugins {[ "Set" := sample_Set ]} initial.

(** A fresh instance whose marker key is [marker]. *)
Definition with_marker (marker : string) : BetterJSONSerializer :=
  with_conf {| allowPluginsOverwrite := false;
               serializedObjectIdentifier := marker;
               defaultIndentation := NFin 0 |} initial.

Definition with_infinity : BetterJSONSerializer :=
  with_plugins {[ "infinity" := sample_infinity ]} initial.

(** The document of an envelope. *)
Definition envelope_json (marker : string) (version : Z) (type : string)
    (inner : json) : json :=
  JObj [(marker,
         JObj [("version", JNum version); ("type", JStr type); ("value", inner)])].

(** A document whose root is an envelope under the default marker key. *)
Definition envelope_doc (version : Z) (type : string) (inner : json) : json :=
  envelope_json "_@serialized-object" version type inner.

(** ** [createPlugin] *)





(** ** Further words for the properties *)

(** Induction over what [use] is handed, with the hypothesis on every
    element of an array. *)
Fixpoint use_argument_nested_ind (P : use_argument → Prop)
    (HPlugin : ∀ p, P (APlugin p))
    (HPlugins : ∀ l, Forall P l → P (APlugins l))
    (HNot : P ANotAPlugin)
    (a : use_argument) : P a :=
  match a with
  | APlugin p => HPlugin p
  | APlugins l =>
      HPlugins l
        ((fix elements (l : list use_argument) : Forall P l :=
            match l with
            | [] => List.Forall_nil P
            | x :: rest =>
                List.Forall_cons P x rest
                  (use_argument_nested_ind P HPlugin HPlugins HNot x)
                  (elements rest)
            end) l)
  | ANotAPlugin => HNot
  end.

(** Every plugin of the registry sits under its own name. *)
Definition named_by_key (ps : gmap string Plugin) : Prop :=
  ∀ k p, ps !! k = Some p → name p = k.

(** What a call of [use] may do to the instance. *)
Definition grown (self self' : BetterJSONSerializer) : Prop :=
  conf self' = conf self
  ∧ (∀ k, is_Some (plugins self !! k) → is_Some (plugins self' !! k))
  ∧ (named_by_key (plugins self) → named_by_key (plugins self'))
  ∧ (allowPluginsOverwrite (conf self) = false →
     ∀ k p, plugins self !! k = Some p → plugins self' !! k = Some p).

(** The replacer that only reads the name of the constructor, as the
    classification does, and throws where it cannot be read. *)
Definition constructor_check : hook := fun _ v =>
  match constructorName v with
  | Unreadable => Throw constructor_unreadable
  | _ => Ok v
  end.

(** A plugin for the numbers, which writes them as they are. *)
Definition sample_Number : Plugin := {|
  name := "Number";
  serialize := fun _ v => Ok v;
  deserialize := fun _ v => Ok v;
|}.

(** A plugin whose [deserialize] always throws. *)
Definition sample_broken : Plugin := {|
  name := "Broken";
  serialize := fun _ v => Ok VNull;
  deserialize := fun _ _ => Throw (Exn Error "cannot rebuild");
|}.

(** * Properties *)

(** ** Registration *)


Lemma use_plugin_overwrite (p : Plugin) (self : BetterJSONSerializer) :
  allowPluginsOverwrite (conf self) = true →
  use_plugin p self = (with_plugins (<[name p := p]> (plugins self)) self, Ok ()).
Proof.
  intros Hallow. unfold use_plugin. rewrite Hallow.
  by rewrite andb_false_r.
Qed.

Lemma use_plugin_duplicate (p q : Plugin) (self : BetterJSONSerializer) :
  plugins self !! name p = Some q →
  allowPluginsOverwrite (conf self) = false →
  use_plugin p self = (self, Throw (duplicate_plugin (name p))).
Proof.
  intros Hq Hdeny. unfold use_plugin. rewrite Hq, Hdeny.
  by rewrite bool_decide_eq_true_2.
Qed.

(** A call of [use_plugin] that succeeds registers its plugin and keeps every
    identifier that was registered. *)
Lemma use_plugin_ok (p : Plugin) (self self' : BetterJSONSerializer) :
  use_plugin p self = (self', Ok ()) →
  plugins self' !! name p = Some p
  ∧ conf self' = conf self
  ∧ ∀ k, is_Some (plugins self !! k) → is_Some (plugins self' !! k).
Proof.
  unfold use_plugin. case_match; [done |].
  intros [= <-]. simpl. split_and!; [by rewrite lookup_insert_eq | done |].
  intros k Hk. rewrite lookup_insert. by case_decide.
Qed.

(** A call of [use_plugin] that throws leaves the instance as it was. *)
Lemma use_plugin_throw (p : Plugin) (self self' : BetterJSONSerializer) e :
  use_plugin p self = (self', Throw e) → self' = self.
Proof. unfold use_plugin. case_match; congruence. Qed.

Lemma forEach_app {A} (f : A → BetterJSONSerializer → method ())
    (l1 l2 : list A) (self : BetterJSONSerializer) :
  forEach f (l1 ++ l2) self =
    match forEach f l1 self with
    | (self1, Ok _) => forEach f l2 self1
    | (self1, Throw e) => (self1, Throw e)
    end.
Proof.
  revert self. induction l1 as [| x l1 IH]; intros self; simpl; [done |].
  destruct (f x self) as [self' [[] | e]]; [apply IH | done].
Qed.

(** After an array of plugins went through [use], each of them (or a later
    one of the same name) is registered, and so is whatever was before. *)
Lemma use_all_registered (ps : list Plugin) (self self' : BetterJSONSerializer) :
  use (APlugins (APlugin <$> ps)) self = (self', Ok ()) →
  (∀ p, p ∈ ps → is_Some (plugins self' !! name p))
  ∧ (∀ k, is_Some (plugins self !! k) → is_Some (plugins self' !! k))
  ∧ conf self' = conf self.
Proof.
  simpl. revert self. induction ps as [| p ps IH]; intros self; simpl.
  - intros [= <-]. split_and!; [by intros p ?%elem_of_nil | done | done].
  - destruct (use_plugin p self) as [self1 [[] | e]] eqn:Hp; [| done].
    intros Hrest. destruct (IH _ Hrest) as (Hps & Hkeep & Hconf).
    destruct (use_plugin_ok _ _ _ Hp) as (Hreg & Hconf1 & Hkeep1).
    split_and!.
    + intros q [-> | Hq]%elem_of_cons; [| by apply Hps].
      apply Hkeep. by rewrite Hreg.
    + intros k Hk. by apply Hkeep, Hkeep1.
    + congruence.
Qed.

(** C4. Registering a plugin whose identifier is already present: with the
    overwrite policy disabled the call throws and the instance, hence the
    plugin registered before, is as it was; with the policy enabled the call
    succeeds, the newer plugin takes the place of the older one, nothing
    else changes, and a value classified under that identifier is from then
    on wrapped with what the newer plugin's [serialize] returns. *)
Theorem use_same_identifier (self : BetterJSONSerializer) (p q : Plugin) :
  plugins self !! name p = Some q →
  (allowPluginsOverwrite (conf self) = false →
     use (APlugin p) self = (self, Throw (duplicate_plugin (name p))))
  ∧ (allowPluginsOverwrite (conf self) = true →
     ∃ self',
       use (APlugin p) self = (self', Ok ())
       ∧ plugins self' = <[name p := p]> (plugins self)
       ∧ conf self' = conf self
       ∧ ∀ key v,
           constructorName v = name p →
           stringify_visitor self' None key v =
             (serializedValue ←
                try_catch (serialize p key v) (serialize_failed (name p));
              Ok (envelope (serializedObjectIdentifier (conf self)) (name p)
                           serializedValue))).
Proof.
  intros Hq. split; intros Hpolicy; simpl.
  - by eapply use_plugin_duplicate.
  - eexists. split; [by apply use_plugin_overwrite |].
    split_and!; [done | done |].
    intros key v Hv. unfold stringify_visitor. simpl.
    by rewrite Hv, lookup_insert_eq.
Qed.

Lemma use_same_identifier_witness :
  use (APlugin sample_Set_size) with_Set
  = (with_Set, Throw (duplicate_plugin "Set")).
Proof.
  apply (use_same_identifier with_Set sample_Set_size sample_Set);
    reflexivity.
Defined.

(** C10. An array handed to [use] is gone through in order, one plugin at a
    time; when a plugin of the array is refused, the call throws and the
    instance is the one reached after the plugins before it: each of them
    (or a later one of its name) is registered, as is whatever was
    registered before the call. *)
Theorem use_array_keeps_earlier (self self1 : BetterJSONSerializer)
    (before : list Plugin) (p : Plugin) (after : list use_argument)
    (self2 : BetterJSONSerializer) (e : exn) :
  use (APlugins (APlugin <$> before)) self = (self1, Ok ()) →
  use (APlugin p) self1 = (self2, Throw e) →
  use (APlugins ((APlugin <$> before) ++ APlugin p :: after)) self
    = (self1, Throw e)
  ∧ (∀ b, b ∈ before → is_Some (plugins self1 !! name b))
  ∧ (∀ k, is_Some (plugins self !! k) → is_Some (plugins self1 !! k)).
Proof.
  intros Hbefore Hp.
  destruct (use_all_registered _ _ _ Hbefore) as (Hreg & Hkeep & _).
  split_and!; [| done | done].
  simpl in *. rewrite forEach_app, Hbefore. simpl.
  rewrite Hp. by rewrite (use_plugin_throw _ _ _ _ Hp).
Qed.

Lemma use_array_keeps_earlier_witness :
  ∃ self1,
    use (APlugins [APlugin sample_Set; APlugin sample_infinity;
                   APlugin sample_Set_size; APlugin sample_infinity]) initial
      = (self1, Throw (duplicate_plugin "Set"))
    ∧ is_Some (plugins self1 !! "Set")
    ∧ is_Some (plugins self1 !! "infinity").
Proof.
  exists (with_plugins (<["infinity" := sample_infinity]> {[ "Set" := sample_Set ]})
                       initial).
  destruct (use_array_keeps_earlier initial
              (with_plugins (<["infinity" := sample_infinity]> {[ "Set" := sample_Set ]})
                            initial)
              [sample_Set; sample_infinity] sample_Set_size
              [APlugin sample_infinity]
              (with_plugins (<["infinity" := sample_infinity]> {[ "Set" := sample_Set ]})
                            initial)
              (duplicate_plugin "Set"))
    as (Hcall & Hreg & _); [reflexivity | reflexivity |].
  split_and!; [exact Hcall | apply (Hreg sample_Set) | apply (Hreg sample_infinity)];
    repeat constructor.
Defined.

(** ** The walk of [JSON.parse] *)

Lemma revive_elements_throw (f : hook) (l1 l2 l1' : list value) (x : value)
    (i : nat) (e : exn) :
  revive_elements f i l1 = Ok l1' →
  f (index_key (i + length l1)) x = Throw e →
  revive_elements f i (l1 ++ x :: l2) = Throw e.
Proof.
  revert i l1'. induction l1 as [| y l1 IH]; intros i l1' Hl1 Hx; simpl in *.
  - rewrite Nat.add_0_r in Hx. by rewrite Hx.
  - destruct (f (index_key i) y) as [y' | ?]; [simpl in * | done].
    destruct (revive_elements f (S i) l1) as [r |] eqn:Hr; [| done].
    rewrite (IH (S i) r); [done | done |].
    by rewrite Nat.add_succ_l, <- Nat.add_succ_r.
Qed.

Lemma revive_members_throw (f : hook) (props1 props2 props1' : list (string * value))
    (k : string) (x : value) (e : exn) :
  revive_members f props1 = Ok props1' →
  f k x = Throw e →
  revive_members f (props1 ++ (k, x) :: props2) = Throw e.
Proof.
  revert props1'.
  induction props1 as [| [k1 y] props1 IH]; intros props1' Hp Hx; simpl in *.
  - by rewrite Hx.
  - destruct (f k1 y) as [y' | ?]; [simpl in * | done].
    destruct (revive_members f props1) as [r |] eqn:Hr; [| done].
    by rewrite (IH r).
Qed.

(** The first call of the reviver that throws ends the walk with what it
    threw. *)
Lemma visits_throw (f : hook) name val k v e :
  visits f name val k v →
  f k v = Throw e →
  internalize f name val = Throw e.
Proof.
  induction 1 as [name l l' Hl | name c props props' Hp | name v Hv
                 | name l1 x l2 l1' k v Hl1 _ IH
                 | name c props1 kx x props2 props1' k v Hp1 _ IH];
    intros Hthrow; simpl.
  - by rewrite Hl.
  - by rewrite Hp.
  - by rewrite Hv.
  - by rewrite (revive_elements_throw _ _ _ _ _ _ _ Hl1 (IH Hthrow)).
  - by rewrite (revive_members_throw _ _ _ _ _ _ _ Hp1 (IH Hthrow)).
Qed.

Lemma revive_members_keys (f : hook) (props props' : list (string * value)) k :
  revive_members f props = Ok props' →
  lookup_prop k props = None → lookup_prop k props' = None.
Proof.
  revert props'. induction props as [| [k1 x] props IH]; intros props'; simpl.
  - by intros [= <-].
  - destruct (f k1 x) as [x' |]; [simpl | done].
    destruct (revive_members f props) as [rest |]; [simpl | done].
    intros [= <-]. case_decide; [done |]. intros Hk.
    specialize (IH rest eq_refl Hk).
    destruct x'; simpl; try done; by rewrite decide_False.
Qed.

(** An object of class Object is one still, once its properties are
    revived. *)
Lemma retag_plain (f : hook) (props props' : list (string * value)) :
  revive_members f props = Ok props' →
  VObj (retag (object_reading "Object" props) props props') props' = plain props'.
Proof.
  intros Hrev. unfold plain, retag. f_equal.
  destruct (lookup_prop "constructor" props) eqn:Hown; [done |].
  unfold object_reading. rewrite Hown.
  by rewrite (revive_members_keys _ _ _ _ Hrev Hown).
Qed.

Lemma visits_plain (f : hook) name (props props' : list (string * value)) :
  revive_members (internalize f) props = Ok props' →
  visits f name (plain props) name (plain props').
Proof.
  intros Hrev. rewrite <- (retag_plain _ _ _ Hrev). by apply visits_object.
Qed.

(** ** The reviver of [parse] *)

Lemma not_serialized_recognised (self : BetterJSONSerializer) (v : value) :
  not_serialized self v = false ↔ recognised self v.
Proof.
  unfold not_serialized, recognised, has_property.
  rewrite !orb_false_iff, !negb_false_iff, orb_true_iff,
    !bool_decide_eq_true, bool_decide_eq_false.
  split.
  - intros [[[Hobj Hnull] Hin] Hlen]. split_and!; [done | by intros -> | done | lia].
  - intros (Hobj & Hnull & Hin & Hlen). split_and!; [done | by destruct v | done | lia].
Qed.

Lemma not_serialized_false (self : BetterJSONSerializer) (v : value) :
  envelope_shaped self v → not_serialized self v = false.
Proof.
  intros (Hobj & Hnull & Hkeys). apply not_serialized_recognised.
  split_and!; [done | done | | by rewrite Hkeys].
  left. rewrite Hkeys. by apply list_elem_of_singleton.
Qed.

Lemma recognised_own (self : BetterJSONSerializer) (v : value) :
  serializedObjectIdentifier (conf self) ∉ inherited_names v →
  recognised self v ↔ envelope_shaped self v.
Proof.
  intros Hown. split.
  - intros (Hobj & Hnull & [Hin | Hin] & Hlen); [| done].
    split_and!; [done | done |].
    destruct (keys v) as [| k1 [| k2 ks]]; simpl in *.
    + by apply elem_of_nil in Hin.
    + by apply list_elem_of_singleton in Hin as ->.
    + lia.
  - intros Henv. by apply not_serialized_recognised, not_serialized_false.
Qed.

Lemma parse_visitor_raw (self : BetterJSONSerializer) reviver key v :
  not_serialized self v = true → parse_visitor self reviver key v = Ok v.
Proof. intros H. unfold parse_visitor. by rewrite H. Qed.

Lemma parse_visitor_envelope (self : BetterJSONSerializer) reviver key v :
  not_serialized self v = false →
  destructurable (get v (serializedObjectIdentifier (conf self))) →
  parse_visitor self reviver key v =
    let serializedObject := get v (serializedObjectIdentifier (conf self)) in
    match plugins_get (plugins self) (get serializedObject "type") with
    | None => Ok (get serializedObject "value")
    | Some matchingPlugin =>
        if version_1 (get serializedObject "version") then
          deserializedValue ←
            try_catch (deserialize matchingPlugin key (get serializedObject "value"))
                      (deserialize_failed (get serializedObject "type"));
          match reviver with
          | Some r =>
              try_catch (r key deserializedValue)
                        (fun _ => reviver_failed key deserializedValue)
          | None => Ok deserializedValue
          end
        else Throw (unsupported_version (get serializedObject "version"))
    end.
Proof.
  intros Henv [Hundef Hnull]. unfold parse_visitor. rewrite Henv. simpl.
  destruct (get v (serializedObjectIdentifier (conf self))) eqn:Hinner;
    try done;
    (destruct (plugins_get _ _); [| done]);
    unfold version_1; repeat case_match; congruence.
Qed.

Lemma lookup_prop_None {A} (k : string) (props : list (string * A)) :
  lookup_prop k props = None ↔ k ∉ props.*1.
Proof.
  induction props as [| [k' y] props IH]; simpl.
  - split; [intros _; apply not_elem_of_nil | done].
  - rewrite not_elem_of_cons. case_decide as Hk.
    + split; [done | intros [Hne _]; by destruct Hne].
    + rewrite IH. intuition congruence.
Qed.






Lemma no_plugin_raw_value (self : BetterJSONSerializer)
    (reviver : option hook) (key : string) (v : value) :
  envelope_shaped self v →
  destructurable (get v (serializedObjectIdentifier (conf self))) →
  plugins_get (plugins self)
    (get (get v (serializedObjectIdentifier (conf self))) "type") = None →
  parse_visitor self reviver key v
    = Ok (get (get v (serializedObjectIdentifier (conf self))) "value").
Proof.
  intros Henv%not_serialized_false Hinner Hnone.
  rewrite parse_visitor_envelope by done. simpl. by rewrite Hnone.
Qed.

(** C6. The reviver of [parse] unwraps a node that [JSON.parse] has built
    exactly when it is an object, not [null], on which the marker key is
    found, as its own or inherited, and that has at most one own enumerable
    property. For a marker key that the node does not inherit, as the
    default one, that is: its properties are the marker key and no other.
    An object with more than one property, so one that has the marker key
    as its own next to other keys, a value that is no object, and [null]
    are returned as they are, whatever the reviver and the registry.
    With the marker key set to a name every object inherits, an object that
    has another property and not the marker key among its own is taken for
    an envelope all the same: the reviver returns [undefined] for it, and
    so does the whole parse. *)
Theorem envelope_recognition (self : BetterJSONSerializer) :
  (∀ v, built_by_parse v →
        (not_serialized self v = false ↔ recognised self v))
  ∧ (∀ v, built_by_parse v →
          serializedObjectIdentifier (conf self) ∉ inherited_names v →
          (not_serialized self v = false ↔ envelope_shaped self v))
  ∧ (∀ reviver key v,
       built_by_parse v →
       ¬ recognised self v → parse_visitor self reviver key v = Ok v)
  ∧ (∀ reviver key v,
       serializedObjectIdentifier (conf self) ∈ keys v →
       1 < length (keys v) →
       parse_visitor self reviver key v = Ok v)
  ∧ (∀ reviver key v,
       typeof_object v = false ∨ v = VNull →
       parse_visitor self reviver key v = Ok v)
  ∧ ¬ envelope_shaped (with_marker "toString") (plain [("a", VNum (NFin 1))])
  ∧ parse_visitor (with_marker "toString") None "" (plain [("a", VNum (NFin 1))])
    = Ok VUndefined
  ∧ parse (with_marker "toString") (Doc (JObj [("a", JNum 1)])) None
    = Ok VUndefined
  ∧ parse (with_marker "length") (Doc (JArr [JNum 7])) None = Ok VUndefined.
Proof.
  assert (Hraw : ∀ reviver key v,
            ¬ recognised self v → parse_visitor self reviver key v = Ok v).
  { intros reviver key v Hno. apply parse_visitor_raw.
    destruct (not_serialized self v) eqn:Hv; [done |].
    by apply not_serialized_recognised in Hv. }
  split_and!.
  - intros v _. apply not_serialized_recognised.
  - intros v _ Hown. rewrite not_serialized_recognised. by apply recognised_own.
  - intros reviver key v _. apply Hraw.
  - intros reviver key v _ Hlen. apply Hraw. intros (_ & _ & _ & Hkeys). lia.
  - intros reviver key v Hv. apply Hraw. intros (Hobj & Hnull & _).
    destruct Hv; congruence.
  - intros (_ & _ & Hkeys). discriminate Hkeys.
  - reflexivity.
  - reflexivity.
  - reflexivity.
Qed.

Lemma envelope_recognition_witness :
  parse_visitor with_Set None "k"
    (plain [("_@serialized-object", plain [("type", VStr "Set")]);
            ("sibling", VNum (NFin 0))])
  = Ok (plain [("_@serialized-object", plain [("type", VStr "Set")]);
               ("sibling", VNum (NFin 0))]).
Proof.
  destruct (envelope_recognition with_Set) as (_ & _ & _ & Hsiblings & _).
  apply Hsiblings; [repeat constructor | simpl; lia].
Defined.




(** C3. The classification goes by the special cases in their order:
    [undefined], [null], the positive infinity, not-a-number, then the name
    of the constructor. The negative infinity is none of the special cases:
    it is classified as a [Number], and where a plugin is registered for
    ["infinity"] the positive infinity is wrapped by it while the negative
    one goes out as any number that JSON cannot hold, as [null]. *)
Theorem constructorName_special_cases :
  constructorName VUndefined = "undefined"
  ∧ constructorName VNull = "null"
  ∧ constructorName (VNum NInfinity) = "infinity"
  ∧ constructorName (VNum NNaN) = "nan"
  ∧ (∀ z, constructorName (VNum (NFin z)) = "Number")
  ∧ (∀ c props, constructorName (VObj c props) = c)
  ∧ (∀ c slots tojson, constructorName (VHost c slots tojson) = c)
  ∧ constructorName (VNum NNegInfinity) = "Number"
  ∧ (∀ fuel : nat,
       stringify (S (S (S fuel))) with_infinity (VNum NInfinity) None
       = Ok (Some (JObj [("_@serialized-object",
                          JObj [("version", JNum 1); ("type", JStr "infinity");
                                ("value", JStr "inf")])])))
  ∧ (∀ fuel : nat,
       stringify (S fuel) with_infinity (VNum NNegInfinity) None
       = Ok (Some JNull)).
Proof. by split_and!. Qed.

(** ** Failures of the hooks *)

(** The failure of a plugin is chained: its message ends the one raised. *)
Lemma serialize_failure_chained (self : BetterJSONSerializer) (fuel : nat)
    (v : value) (type : string) (p : Plugin) (e : exn) :
  constructorName (apply_toJSON v) = type →
  plugins self !! type = Some p →
  serialize p "" (apply_toJSON v) = Throw e →
  stringify (S fuel) self v None
  = Throw (stringify_failed (serialize_failed type e)).
Proof.
  intros Htype Hp He. unfold stringify, JSON_stringify. simpl.
  unfold stringify_visitor. simpl. by rewrite Htype, Hp, He.
Qed.

(** C8. A replacer or a reviver that throws: the error raised names the key
    and the value, under the failure of the whole call, and is the same
    whatever was thrown. The message of the original failure is not in it,
    whereas the failure of a plugin is chained with its message. *)
Theorem hook_failure_message_dropped :
  (∀ (self : BetterJSONSerializer) (fuel : nat) (v : value) (e : exn),
     stringify (S fuel) self v (Some (fun _ _ => Throw e))
     = Throw (stringify_failed (replacer_failed "" (apply_toJSON v))))
  ∧ (∀ e : exn,
       parse with_Set (Doc (envelope_doc 1 "Set" (JArr [])))
             (Some (fun _ _ => Throw e))
       = Throw (parse_failed (reviver_failed "" (a_Set []))))
  ∧ stringify 1 initial (VNum (NFin 1))
      (Some (fun _ _ => Throw (Exn Error "boom")))
    = Throw (Exn EvalError
        ("Error while stringifying object." ++ LF ++ LF ++
         "An error occured while calling the replacer function on key='' and '1'."))
  ∧ stringify 1 (with_plugins
                   {[ "Number" := {| name := "Number";
                                     serialize := fun _ _ => Throw (Exn Error "boom");
                                     deserialize := fun _ v => Ok v |} ]} initial)
      (VNum (NFin 1)) None
    = Throw (Exn EvalError
        ("Error while stringifying object." ++ LF ++ LF ++
         "Error while serializing type 'Number'." ++ LF ++ LF ++ "boom")).
Proof. by split_and!. Qed.

(** ** The configuration *)




(** ** The round trip *)

Lemma define_property_nil {A} (k : string) (x : A) :
  define_property k x [] = [(k, x)].
Proof.
  unfold define_property.
  rewrite bool_decide_eq_false_2 by apply not_elem_of_nil.
  by destruct (index_of_key k).
Qed.

Lemma set_prop_Forall {A} (Q : string * A → Prop) k x (props : list (string * A)) :
  Forall Q props → Q (k, x) → Forall Q (set_prop k x props).
Proof.
  intros Hall Hx. induction Hall as [| [k' y] props Hy Hrest IH]; simpl.
  - by constructor.
  - case_decide as Hk; [subst k' |]; by constructor.
Qed.

Lemma insert_index_Forall {A} (Q : string * A → Prop) n k x
    (props : list (string * A)) :
  Forall Q props → Q (k, x) → Forall Q (insert_index n k x props).
Proof.
  intros Hall Hx. induction Hall as [| [k' y] props Hy Hrest IH]; simpl.
  - by constructor.
  - destruct (index_of_key k') as [n' |]; [destruct (n' <? n)%N |];
      repeat constructor; done.
Qed.

(** Whatever holds of the properties and of the new one holds after
    [define_property]. *)
Lemma define_property_Forall {A} (Q : string * A → Prop) k x
    (props : list (string * A)) :
  Forall Q props → Q (k, x) → Forall Q (define_property k x props).
Proof.
  intros Hall Hx. unfold define_property. case_bool_decide.
  - by apply set_prop_Forall.
  - destruct (index_of_key k).
    + by apply insert_index_Forall.
    + apply Forall_app. split; [done | by constructor].
Qed.

Lemma from_json_members_Forall (Q : value → Prop) (members : list (string * json))
    (acc : list (string * value)) :
  Forall (fun kx => Q kx.2) acc →
  Forall (fun m => Q (from_json m.2)) members →
  Forall (fun kx => Q kx.2)
    (foldl (fun acc m => define_property m.1 (from_json m.2) acc) acc members).
Proof.
  intros Hacc Hall. revert acc Hacc.
  induction Hall as [| m members Hm _ IH]; intros acc Hacc; simpl; [done |].
  apply IH. by apply define_property_Forall.
Qed.

Lemma insert_index_last {A} n k (x : A) (props : list (string * A)) :
  index_of_key k = Some n →
  Forall (fun k' => may_precede k' k = true) props.*1 →
  insert_index n k x props = (props ++ [(k, x)])%list.
Proof.
  intros Hk. induction props as [| [k' y] props IH]; simpl; [done |].
  intros Hall. apply Forall_cons in Hall as [Hk' Hall].
  unfold may_precede in Hk'. rewrite Hk in Hk'. simpl in Hk'.
  destruct (index_of_key k') as [n' |]; [| done].
  rewrite Hk'. by rewrite IH.
Qed.

(** A new property that comes last in the order of enumeration is put
    last. *)
Lemma define_property_last {A} k (x : A) (props : list (string * A)) :
  k ∉ props.*1 →
  Forall (fun k' => may_precede k' k = true) props.*1 →
  define_property k x props = (props ++ [(k, x)])%list.
Proof.
  intros Hfresh Hall. unfold define_property.
  rewrite bool_decide_eq_false_2 by done.
  destruct (index_of_key k) as [n |] eqn:Hk; [| done].
  by apply insert_index_last.
Qed.

Lemma from_json_members_from (acc : list (string * value))
    (members : list (string * json)) :
  NoDup (acc.*1 ++ members.*1) →
  Forall (fun k' => Forall (fun k => may_precede k' k = true) members.*1) acc.*1 →
  host_ordered members.*1 = true →
  foldl (fun acc m => define_property m.1 (from_json m.2) acc) acc members
  = (acc ++ (prod_map id from_json <$> members))%list.
Proof.
  revert acc. induction members as [| [k j] members IH]; intros acc Hnd Hacc Hord.
  - simpl. by rewrite app_nil_r.
  - simpl in *. apply andb_true_iff in Hord as [Hk Hord].
    rewrite define_property_last.
    + rewrite IH; [by rewrite <- app_assoc | | | done].
      * rewrite fmap_app. simpl. by rewrite <- app_assoc.
      * rewrite fmap_app. simpl. apply Forall_app. split.
        -- eapply Forall_impl; [exact Hacc |]. simpl.
           intros k' Hk'. by apply Forall_cons in Hk' as [_ ?].
        -- constructor; [| done]. apply Forall_forall.
           intros k2 Hk2%list_elem_of_In. by eapply forallb_forall in Hk.
    + apply NoDup_app in Hnd as (_ & Hdisj & _).
      intros Hin. apply (Hdisj k Hin). by left.
    + eapply Forall_impl; [exact Hacc |]. simpl.
      intros k' Hk'. by apply Forall_cons in Hk' as [? _].
Qed.

(** An object whose member names are distinct and in the order of
    enumeration is parsed member by member. *)
Lemma from_json_members (members : list (string * json)) :
  NoDup members.*1 →
  host_ordered members.*1 = true →
  from_json (JObj members) = plain (prod_map id from_json <$> members).
Proof.
  intros Hnd Hord. simpl. by rewrite from_json_members_from.
Qed.

Lemma lookup_prop_Forall {A} (Q : A → Prop) k x (props : list (string * A)) :
  Forall (fun kx => Q kx.2) props → lookup_prop k props = Some x → Q x.
Proof.
  induction 1 as [| [k' y] props Hy _ IH]; simpl; [done |].
  case_decide; [by intros [= <-] | done].
Qed.

(** A document denotes data: no function, and nothing that is no value. *)
Lemma from_json_data (j : json) :
  (∀ n r, from_json j ≠ VFunction n r)
  ∧ from_json j ≠ VUndefined
  ∧ from_json j ≠ VEmpty.
Proof. by destruct j. Qed.

Lemma from_json_element (j : json) : element (from_json j) = from_json j.
Proof. by destruct j. Qed.

Lemma from_json_toJSON (j : json) : apply_toJSON (from_json j) = from_json j.
Proof.
  destruct j as [| | | | | members]; try done.
  simpl. unfold plain, apply_toJSON.
  destruct (lookup_prop "toJSON" _) as [x |] eqn:Hx; [| done].
  assert (Hdata : ∀ n r, x ≠ VFunction n r).
  { eapply (lookup_prop_Forall (fun v => ∀ n r, v ≠ VFunction n r));
      [| exact Hx].
    apply (from_json_members_Forall (fun v => ∀ n r, v ≠ VFunction n r));
      [done |].
    apply Forall_forall. intros m _. apply from_json_data. }
  destruct x; try done. by destruct (Hdata name0 x).
Qed.

Lemma untouched_node self j :
  untouched self j = true →
  unclaimed self (from_json j) = true
  ∧ not_serialized self (from_json j) = true.
Proof.
  intros H. assert (H' : unclaimed self (from_json j)
                         && not_serialized self (from_json j) = true).
  { destruct j; simpl in H |- *; apply andb_true_iff in H as [H _]; exact H. }
  by apply andb_true_iff in H'.
Qed.

Lemma untouched_elements self l :
  untouched self (JArr l) = true → Forall (fun x => untouched self x = true) l.
Proof.
  simpl. intros [_ H]%andb_true_iff.
  apply Forall_forall. intros x Hx%list_elem_of_In.
  by eapply forallb_forall in H.
Qed.

Lemma untouched_members self members :
  untouched self (JObj members) = true →
  NoDup members.*1 ∧ Forall (fun m => untouched self m.2 = true) members.
Proof.
  intros H.
  assert (H' : bool_decide (NoDup members.*1)
               && forallb (fun m => untouched self m.2) members = true).
  { simpl in H. apply andb_true_iff in H as [_ H]. exact H. }
  apply andb_true_iff in H' as [Hnd Hall]. split.
  - by apply bool_decide_eq_true in Hnd.
  - apply Forall_forall. intros x Hx%list_elem_of_In.
    by eapply forallb_forall in Hall.
Qed.

Lemma canonical_elements l :
  canonical (JArr l) = true → Forall (fun x => canonical x = true) l.
Proof.
  simpl. intros H. apply Forall_forall. intros x Hx%list_elem_of_In.
  by eapply forallb_forall in H.
Qed.

Lemma canonical_members members :
  canonical (JObj members) = true →
  NoDup members.*1 ∧ host_ordered members.*1 = true
  ∧ Forall (fun m => canonical m.2 = true) members.
Proof.
  simpl. intros [[Hnd Hord]%andb_true_iff Hall]%andb_true_iff. split_and!.
  - by apply bool_decide_eq_true in Hnd.
  - done.
  - apply Forall_forall. intros x Hx%list_elem_of_In.
    by eapply forallb_forall in Hall.
Qed.

Lemma height_element (l : list json) (x : json) :
  x ∈ l → (height x ≤ foldr (fun x n => height x `max` n) 0 l)%nat.
Proof.
  induction l as [| y l IH]; [by intros ?%elem_of_nil |].
  intros [-> | Hx]%elem_of_cons; simpl; [lia |].
  specialize (IH Hx). lia.
Qed.

Lemma height_member (members : list (string * json)) (m : string * json) :
  m ∈ members →
  (height m.2 ≤ foldr (fun m n => height m.2 `max` n) 0 members)%nat.
Proof.
  induction members as [| y l IH]; [by intros ?%elem_of_nil |].
  intros [-> | Hx]%elem_of_cons; simpl; [lia |].
  specialize (IH Hx). lia.
Qed.

Lemma stringify_visitor_unclaimed (self : BetterJSONSerializer) key v :
  unclaimed self v = true →
  stringify_visitor self None key v = Ok v.
Proof.
  unfold unclaimed, stringify_visitor. simpl.
  destruct (constructorName v) as [type | |]; [| done | done].
  intros H%bool_decide_eq_true. by rewrite H.
Qed.

Lemma unclaimed_named (self : BetterJSONSerializer) (v : value) (type : string) :
  constructorName v = type →
  plugins self !! type = None →
  unclaimed self v = true.
Proof.
  intros Hv Hfree. unfold unclaimed. rewrite Hv. by apply bool_decide_eq_true.
Qed.

Lemma stringify_visitor_claimed (self : BetterJSONSerializer) key v
    (type : string) p sv :
  constructorName v = type →
  plugins self !! type = Some p →
  serialize p key v = Ok sv →
  stringify_visitor self None key v
  = Ok (envelope (serializedObjectIdentifier (conf self)) type sv).
Proof.
  intros Hv Hp Hsv. unfold stringify_visitor. simpl. by rewrite Hv, Hp, Hsv.
Qed.

Lemma serialize_elements_all (f : string → value → result (option json))
    (l : list json) (i : nat) :
  Forall (fun x => ∀ key, f key (from_json x) = Ok (Some x)) l →
  serialize_elements f i (from_json <$> l) = Ok l.
Proof.
  intros H. revert i. induction H as [| x l Hx _ IH]; intros i; [done |].
  rewrite fmap_cons. cbn [serialize_elements].
  rewrite from_json_element, Hx. cbn [mbind result_bind]. by rewrite IH.
Qed.

Lemma serialize_members_all (f : string → value → result (option json))
    (members : list (string * json)) :
  Forall (fun m => ∀ key, f key (from_json m.2) = Ok (Some m.2)) members →
  serialize_members f (prod_map id from_json <$> members) = Ok members.
Proof.
  induction 1 as [| [k x] l Hx _ IH]; [done |].
  rewrite fmap_cons. cbn [serialize_members prod_map fst snd id] in *.
  rewrite Hx. cbn [mbind result_bind]. by rewrite IH.
Qed.

(** Plain data that the pipeline leaves alone is written as it is, when
    its document is in the order of enumeration, given a call stack as deep
    as the data. *)
Lemma serialize_untouched (self : BetterJSONSerializer) (j : json) :
  untouched self j = true →
  canonical j = true →
  ∀ fuel key, (height j ≤ fuel)%nat →
    SerializeJSONProperty fuel (stringify_visitor self None) key (from_json j)
    = Ok (Some j).
Proof.
  induction j as [| b | z | s | l IH | members IH] using json_nested_ind;
    intros Hu Hc fuel key Hfuel;
    destruct (untouched_node _ _ Hu) as [Hfree _];
    (destruct fuel as [| fuel]; [simpl in Hfuel; lia |]);
    cbn [SerializeJSONProperty];
    rewrite from_json_toJSON, (stringify_visitor_unclaimed _ _ _ Hfree);
    try done.
  - cbn [from_json mbind result_bind].
    rewrite serialize_elements_all; [done |].
    pose proof (untouched_elements _ _ Hu) as Hall.
    pose proof (canonical_elements _ Hc) as Hcan.
    rewrite Forall_forall in IH, Hall, Hcan |- *.
    intros x Hx k. apply IH; [done | by apply Hall | by apply Hcan |].
    pose proof (height_element l x Hx). simpl in Hfuel. lia.
  - destruct (untouched_members _ _ Hu) as [_ Hall].
    destruct (canonical_members _ Hc) as (Hnd & Hord & Hcan).
    rewrite (from_json_members _ Hnd Hord). unfold plain.
    cbn [mbind result_bind].
    rewrite serialize_members_all; [done |].
    rewrite Forall_forall in IH, Hall, Hcan |- *.
    intros m Hm k. apply IH; [done | by apply Hall | by apply Hcan |].
    pose proof (height_member members m Hm). simpl in Hfuel. lia.
Qed.

Lemma revive_elements_all (f : hook) (l : list json) (i : nat) :
  Forall (fun x => ∀ key, f key (from_json x) = Ok (from_json x)) l →
  revive_elements f i (from_json <$> l) = Ok (from_json <$> l).
Proof.
  intros H. revert i. induction H as [| x l Hx _ IH]; intros i; [done |].
  rewrite fmap_cons. cbn [revive_elements].
  rewrite Hx. cbn [mbind result_bind]. rewrite IH. cbn [mbind result_bind].
  by destruct x.
Qed.

(** Properties that the reviver returns as they are, none of them
    [undefined], are all kept. *)
Lemma revive_members_fixed (f : hook) (props : list (string * value)) :
  Forall (fun kx => (∀ key, f key kx.2 = Ok kx.2) ∧ kx.2 ≠ VUndefined) props →
  revive_members f props = Ok props.
Proof.
  induction 1 as [| [k x] props [Hx Hdef] _ IH]; [done |].
  cbn [revive_members]. simpl in Hx, Hdef.
  rewrite Hx. cbn [mbind result_bind]. rewrite IH. cbn [mbind result_bind].
  by destruct x.
Qed.

(** Plain data that the pipeline leaves alone is read as it is. *)
Lemma internalize_untouched (self : BetterJSONSerializer) (reviver : option hook)
    (j : json) :
  untouched self j = true →
  ∀ key, internalize (parse_visitor self reviver) key (from_json j)
         = Ok (from_json j).
Proof.
  induction j as [| b | z | s | l IH | members IH] using json_nested_ind;
    intros Hu key;
    destruct (untouched_node _ _ Hu) as [_ Hraw];
    try (by apply parse_visitor_raw).
  - cbn [from_json internalize].
    rewrite revive_elements_all.
    + cbn [mbind result_bind]. by apply parse_visitor_raw.
    + pose proof (untouched_elements _ _ Hu) as Hall.
      rewrite Forall_forall in IH, Hall |- *.
      intros x Hx k. apply IH; [done | by apply Hall].
  - destruct (untouched_members _ _ Hu) as [_ Hall].
    cbn [from_json] in Hraw |- *.
    set (props := foldl _ _ _) in *.
    assert (Hfixed : revive_members (internalize (parse_visitor self reviver)) props
                     = Ok props).
    { apply revive_members_fixed. subst props.
      apply (from_json_members_Forall
               (fun x => (∀ key, internalize (parse_visitor self reviver) key x = Ok x)
                         ∧ x ≠ VUndefined)); [done |].
      rewrite Forall_forall in IH, Hall |- *.
      intros m Hm. split; [| by destruct (m.2)].
      intros k. apply IH; [done | by apply Hall]. }
    unfold plain at 1. cbn [internalize]. rewrite Hfixed.
    cbn [mbind result_bind]. rewrite (retag_plain _ _ _ Hfixed).
    by apply parse_visitor_raw.
Qed.


Lemma SerializeJSONProperty_step (fuel : nat) (replacer : hook) key val :
  SerializeJSONProperty (S fuel) replacer key val
  = (v ← replacer key (apply_toJSON val);
     match v with
     | VUndefined | VEmpty => Ok None
     | VNull => Ok (Some JNull)
     | VBool b => Ok (Some (JBool b))
     | VNum (NFin z) => Ok (Some (JNum z))
     | VNum _ => Ok (Some JNull)
     | VStr s => Ok (Some (JStr s))
     | VBigInt _ => Throw (Exn TypeError "Do not know how to serialize a BigInt")
     | VArr l =>
         js ← serialize_elements (SerializeJSONProperty fuel replacer) 0 l;
         Ok (Some (JArr js))
     | VObj _ props =>
         ms ← serialize_members (SerializeJSONProperty fuel replacer) props;
         Ok (Some (JObj ms))
     | VHost _ _ _ => Ok (Some (JObj []))
     | VFunction _ _ => Ok None
     end).
Proof. reflexivity. Qed.

Lemma serialize_number (self : BetterJSONSerializer) fuel key z :
  plugins self !! "Number" = None →
  (1 ≤ fuel)%nat →
  SerializeJSONProperty fuel (stringify_visitor self None) key (VNum (NFin z))
  = Ok (Some (JNum z)).
Proof.
  intros Hfree Hfuel. destruct fuel as [| fuel]; [lia |].
  cbn [SerializeJSONProperty apply_toJSON].
  by rewrite (stringify_visitor_unclaimed _ _ _ (unclaimed_named self (VNum (NFin z)) "Number" eq_refl Hfree)).
Qed.

Lemma serialize_string (self : BetterJSONSerializer) fuel key s :
  plugins self !! "String" = None →
  (1 ≤ fuel)%nat →
  SerializeJSONProperty fuel (stringify_visitor self None) key (VStr s)
  = Ok (Some (JStr s)).
Proof.
  intros Hfree Hfuel. destruct fuel as [| fuel]; [lia |].
  cbn [SerializeJSONProperty apply_toJSON].
  by rewrite (stringify_visitor_unclaimed _ _ _ (unclaimed_named self (VStr s) "String" eq_refl Hfree)).
Qed.

(** What the envelope holds under the marker key is written field by
    field, the inner value as the traversal writes it. *)
Lemma serialize_serialized_object (self : BetterJSONSerializer) fuel key
    (type : string) (e : value) (j : json) :
  plugins self !! "Object" = None →
  plugins self !! "Number" = None →
  plugins self !! "String" = None →
  SerializeJSONProperty fuel (stringify_visitor self None) "value" e = Ok (Some j) →
  SerializeJSONProperty (S fuel) (stringify_visitor self None) key
    (plain [("version", VNum (NFin 1)); ("type", VStr type); ("value", e)])
  = Ok (Some (JObj [("version", JNum 1); ("type", JStr type); ("value", j)])).
Proof.
  intros HObject HNumber HString He.
  assert (Hfuel : (1 ≤ fuel)%nat) by (destruct fuel; [done | lia]).
  set (fields := [("version", VNum (NFin 1)); ("type", VStr type); ("value", e)]).
  assert (Hvisitor : stringify_visitor self None key (plain fields)
                     = Ok (plain fields)).
  { apply stringify_visitor_unclaimed. by apply (unclaimed_named _ _ "Object"). }
  rewrite SerializeJSONProperty_step.
  change (apply_toJSON (plain fields)) with (plain fields). rewrite Hvisitor.
  unfold plain, fields. cbn [mbind result_bind serialize_members].
  rewrite serialize_number, serialize_string by done.
  rewrite He. reflexivity.
Qed.

(** A value that a plugin encodes is written as the envelope of what the
    traversal writes for the encoding. *)
Lemma stringify_envelope (self : BetterJSONSerializer) (v : value)
    (type : string) (p : Plugin) (e : value) (j : json) (fuel : nat) :
  constructorName (apply_toJSON v) = type →
  plugins self !! type = Some p →
  serialize p "" (apply_toJSON v) = Ok e →
  plugins self !! "Object" = None →
  plugins self !! "Number" = None →
  plugins self !! "String" = None →
  SerializeJSONProperty fuel (stringify_visitor self None) "value" e = Ok (Some j) →
  stringify (S (S fuel)) self v None
  = Ok (Some (envelope_json (serializedObjectIdentifier (conf self)) 1 type j)).
Proof.
  intros Hv Hp Hser HObject HNumber HString He.
  unfold stringify, JSON_stringify.
  rewrite SerializeJSONProperty_step.
  rewrite (stringify_visitor_claimed _ _ _ _ _ _ Hv Hp Hser).
  unfold envelope at 1, plain at 1.
  cbn [mbind result_bind serialize_members].
  rewrite (serialize_serialized_object _ _ _ _ e j) by done.
  reflexivity.
Qed.

Lemma from_json_envelope (marker : string) (version : Z) (type : string) (j : json) :
  from_json (envelope_json marker version type j)
  = plain [(marker, plain [("version", VNum (NFin version)); ("type", VStr type);
                           ("value", from_json j)])].
Proof.
  unfold envelope_json. cbn [from_json foldl fst snd].
  by rewrite define_property_nil.
Qed.

(** The walk over the document of an envelope comes to the call of the
    reviver on the root, the fields being as they were written and the
    inner value as the walk revives it. *)
Lemma internalize_envelope (self : BetterJSONSerializer) (reviver : option hook)
    (marker : string) (version : Z) (type : string) (j : json) (e : value)
    (key : string) :
  internalize (parse_visitor self reviver) "value" (from_json j) = Ok e →
  internalize (parse_visitor self reviver) key
    (from_json (envelope_json marker version type j))
  = parse_visitor self reviver key
      (plain [(marker, serialized_object version type e)]).
Proof.
  intros He. rewrite from_json_envelope.
  set (fields := [("version", VNum (NFin version)); ("type", VStr type);
                  ("value", from_json j)]).
  set (fields' := ("version", VNum (NFin version)) :: ("type", VStr type)
                  :: match e with
                     | VUndefined => []
                     | _ => [("value", e)]
                     end).
  assert (Hfields : revive_members (internalize (parse_visitor self reviver)) fields
                    = Ok fields').
  { unfold fields. cbn [revive_members internalize]. rewrite He.
    rewrite !(parse_visitor_raw self reviver _ (VNum _)) by done.
    rewrite !(parse_visitor_raw self reviver _ (VStr _)) by done.
    reflexivity. }
  assert (Hinner : internalize (parse_visitor self reviver) marker (plain fields)
                   = Ok (plain fields')).
  { unfold plain at 1. cbn [internalize]. rewrite Hfields.
    cbn [mbind result_bind]. rewrite (retag_plain _ _ _ Hfields).
    apply parse_visitor_raw.
    unfold not_serialized.
    assert (Hlen : (1 < length (keys (plain fields')))%nat)
      by (unfold fields'; destruct e; simpl; lia).
    rewrite (bool_decide_eq_true_2 _ Hlen). by rewrite orb_true_r. }
  assert (Hroot : revive_members (internalize (parse_visitor self reviver))
                    [(marker, plain fields)] = Ok [(marker, plain fields')]).
  { cbn [revive_members]. rewrite Hinner. reflexivity. }
  unfold plain at 1. cbn [internalize]. rewrite Hroot.
  cbn [mbind result_bind]. by rewrite (retag_plain _ _ _ Hroot).
Qed.

Lemma serialized_object_fields (version : Z) (type : string) (e : value) :
  get (serialized_object version type e) "version" = VNum (NFin version)
  ∧ get (serialized_object version type e) "type" = VStr type
  ∧ get (serialized_object version type e) "value" = e
  ∧ destructurable (serialized_object version type e).
Proof.
  unfold serialized_object. split_and!; [done | done | by destruct e | done].
Qed.

Lemma envelope_is_shaped (self : BetterJSONSerializer) (inner : value) :
  envelope_shaped self (plain [(serializedObjectIdentifier (conf self), inner)])
  ∧ get (plain [(serializedObjectIdentifier (conf self), inner)])
        (serializedObjectIdentifier (conf self)) = inner.
Proof.
  split; [by split_and! |].
  unfold plain, get. cbn [lookup_prop]. by rewrite decide_True.
Qed.

(** The document of an envelope of version 1 whose type has a plugin is
    read as what the plugin decodes from the inner value, as the walk
    revives it. *)
Lemma parse_envelope (self : BetterJSONSerializer) (type : string) (p : Plugin)
    (j : json) (e : value) :
  plugins self !! type = Some p →
  internalize (parse_visitor self None) "value" (from_json j) = Ok e →
  parse self
    (Doc (envelope_json (serializedObjectIdentifier (conf self)) 1 type j)) None
  = try_catch (try_catch (deserialize p "" e)
                         (deserialize_failed (VStr type)))
              parse_failed.
Proof.
  intros Hp He. unfold parse, JSON_parse.
  rewrite (internalize_envelope _ _ _ _ _ _ e) by done.
  destruct (envelope_is_shaped self (serialized_object 1 type e)) as [Hshape Hget].
  destruct (serialized_object_fields 1 type e) as (Hver & Htype & Hval & Hdes).
  rewrite parse_visitor_envelope;
    [| by apply not_serialized_false | by rewrite Hget].
  rewrite Hget. cbn zeta. rewrite Hver, Htype, Hval. simpl. rewrite Hp.
  by destruct (deserialize p "" e).
Qed.

(** C5. An envelope whose type has no registered plugin: the reviver of
    [parse] returns what the envelope holds under [value], without error,
    so that the walk goes on. So does a whole parse: the document of an
    envelope of any version around plain data is read as that data, and
    what an instance with the plugin wrote is read by a fresh instance as
    the inner plain values, next to the other nodes of the document. *)
Theorem missing_plugin_gives_raw_value (self : BetterJSONSerializer)
    (reviver : option hook) :
  (∀ key v,
     envelope_shaped self v →
     destructurable (get v (serializedObjectIdentifier (conf self))) →
     plugins_get (plugins self)
       (get (get v (serializedObjectIdentifier (conf self))) "type") = None →
     parse_visitor self reviver key v
     = Ok (get (get v (serializedObjectIdentifier (conf self))) "value"))
  ∧ (∀ version type j,
       plugins self !! type = None →
       untouched self j = true →
       parse self
         (Doc (envelope_json (serializedObjectIdentifier (conf self))
                 version type j)) reviver
       = Ok (from_json j))
  ∧ (∀ fuel : nat, (5 ≤ fuel)%nat →
       (out ← stringify fuel with_Set
                (VArr [a_Set [VNum (NFin 1); VStr "b"]; VBool true]) None;
        parse initial (text_of out) None)
       = Ok (VArr [VArr [VNum (NFin 1); VStr "b"]; VBool true])).
Proof.
  split_and!.
  - intros key v Henv Hinner Hnone. by apply no_plugin_raw_value.
  - intros version type j Hnone Hj. unfold parse, JSON_parse.
    rewrite (internalize_envelope _ _ _ _ _ _ (from_json j))
      by by apply internalize_untouched.
    destruct (envelope_is_shaped self (serialized_object version type (from_json j)))
      as [Hshape Hget].
    destruct (serialized_object_fields version type (from_json j))
      as (Hver & Htype & Hval & Hdes).
    rewrite no_plugin_raw_value; rewrite ?Hget, ?Htype, ?Hval; done.
  - intros fuel Hfuel.
    do 5 (destruct fuel as [| fuel]; [lia |]). reflexivity.
Qed.

Lemma missing_plugin_gives_raw_value_witness :
  parse_visitor initial None ""
    (plain [("_@serialized-object",
             plain [("version", VNum (NFin 1)); ("type", VStr "widget");
                    ("value", VStr "raw")])])
  = Ok (VStr "raw")
  ∧ parse initial (Doc (envelope_doc 2 "widget" (JArr [JStr "raw"]))) None
    = Ok (VArr [VStr "raw"]).
Proof.
  destruct (missing_plugin_gives_raw_value initial None) as (Hnode & Hdoc & _).
  split.
  - apply Hnode.
    + split_and!; [reflexivity | discriminate | reflexivity].
    + split; discriminate.
    + reflexivity.
  - apply (Hdoc 2%Z "widget" (JArr [JStr "raw"])); reflexivity.
Defined.



(** C1, as the code has it. A value whose classification (after its
    [toJSON], if it has one) has a registered plugin, with no plugin
    registered for the envelope's own nodes (["Object"], ["Number"],
    ["String"]): if the plugin's encoding of the value itself survives the
    pipeline at its place in the envelope (the traversal of [stringify]
    writes it as a document that the walk of [parse] reads back as that
    encoding, as plain data that no plugin claims does, and values owned by
    plugins nested in it), and the plugin decodes the encoding to the value,
    then [parse(stringify(v))] is the value, given two calls of stack above
    what the encoding takes. In particular so when the encoding is plain
    data that the pipeline leaves alone, written in the order of
    enumeration. *)
Theorem round_trip_of_plain_encoding (self : BetterJSONSerializer)
    (v : value) (type : string) (p : Plugin) (e : value) :
  constructorName (apply_toJSON v) = type →
  plugins self !! type = Some p →
  serialize p "" (apply_toJSON v) = Ok e →
  deserialize p "" e = Ok v →
  plugins self !! "Object" = None →
  plugins self !! "Number" = None →
  plugins self !! "String" = None →
  (∀ (j : json) (fuel : nat),
     SerializeJSONProperty fuel (stringify_visitor self None) "value" e
     = Ok (Some j) →
     internalize (parse_visitor self None) "value" (from_json j) = Ok e →
     round_trip (S (S fuel)) self v = Ok v)
  ∧ (∀ (j : json) (fuel : nat),
       e = from_json j →
       untouched self j = true →
       canonical j = true →
       (height j ≤ fuel)%nat →
       round_trip (S (S fuel)) self v = Ok v).
Proof.
  intros Hv Hp Hser Hdes HObject HNumber HString.
  assert (Hgeneral : ∀ (j : json) (fuel : nat),
            SerializeJSONProperty fuel (stringify_visitor self None) "value" e
            = Ok (Some j) →
            internalize (parse_visitor self None) "value" (from_json j) = Ok e →
            round_trip (S (S fuel)) self v = Ok v).
  { intros j fuel Hout Hin. unfold round_trip.
    rewrite (stringify_envelope self v type p e j fuel) by done.
    cbn [mbind result_bind text_of].
    rewrite (parse_envelope self _ p j e) by done.
    by rewrite Hdes. }
  split; [exact Hgeneral |].
  intros j fuel -> Hu Hc Hfuel. apply (Hgeneral j fuel).
  - by apply serialize_untouched.
  - by apply internalize_untouched.
Qed.

Lemma round_trip_of_plain_encoding_witness :
  round_trip 7 with_Set (a_Set [a_Set [VNum (NFin 1)]; VStr "a"])
  = Ok (a_Set [a_Set [VNum (NFin 1)]; VStr "a"]).
Proof.
  destruct (round_trip_of_plain_encoding with_Set
              (a_Set [a_Set [VNum (NFin 1)]; VStr "a"]) "Set" sample_Set
              (VArr [a_Set [VNum (NFin 1)]; VStr "a"]))
    as [Hgeneral _]; [reflexivity .. |].
  apply (Hgeneral (JArr [envelope_doc 1 "Set" (JArr [JNum 1]); JStr "a"]) 5);
    reflexivity.
Defined.

(** C1, as stated, fails. The sample plugin for [Set] decodes what it
    encodes, for every set; yet a set that holds not-a-number does not come
    back from the round trip, whatever the depth of the call stack: JSON
    holds [null] in its place. *)
Lemma round_trip_counterexample :
  plugins with_Set !! "Set" = Some sample_Set
  ∧ constructorName (a_Set [VNum NNaN]) = "Set"
  ∧ (∀ key l, serialize sample_Set key (a_Set l) ≫= deserialize sample_Set key
              = Ok (a_Set l))
  ∧ (∀ fuel : nat, round_trip fuel with_Set (a_Set [VNum NNaN])
                   ≠ Ok (a_Set [VNum NNaN]))
  ∧ round_trip 4 with_Set (a_Set [VNum NNaN]) = Ok (a_Set [VNull]).
Proof.
  split_and!; [reflexivity | reflexivity | reflexivity | | reflexivity].
  intros fuel.
  do 4 (destruct fuel as [| fuel]; [discriminate |]).
  discriminate.
Qed.

(** * Further properties of the code *)

(** ** [setConfig] and [getConfig] *)

Lemma lookup_prop_app {A} (k : string) (l1 l2 : list (string * A)) :
  lookup_prop k (l1 ++ l2)
  = match lookup_prop k l1 with
    | Some x => Some x
    | None => lookup_prop k l2
    end.
Proof.
  induction l1 as [| [k' y] l1 IH]; simpl; [done |]. by case_decide.
Qed.

Lemma lookup_prop_filter {A} (Q : string → Prop) `{!∀ k, Decision (Q k)}
    (k : string) (props : list (string * A)) :
  lookup_prop k (filter (fun kx => Q kx.1) props)
  = if decide (Q k) then lookup_prop k props else None.
Proof.
  induction props as [| [k' y] props IH]; simpl; [by case_decide |].
  rewrite filter_cons. simpl. destruct (decide (Q k')) as [Hk' | Hk']; simpl.
  - destruct (decide (k' = k)) as [-> | Hk]; [by rewrite decide_True | exact IH].
  - rewrite IH. destruct (decide (k' = k)) as [-> | Hk]; [| done].
    by rewrite !decide_False.
Qed.

Lemma lookup_prop_set_prop {A} (k k' : string) (x : A) (props : list (string * A)) :
  lookup_prop k' (set_prop k x props)
  = if decide (k = k') then Some x else lookup_prop k' props.
Proof.
  induction props as [| [k0 y] props IH]; simpl.
  - by case_decide.
  - destruct (decide (k0 = k)) as [-> | Hk0]; simpl.
    + by case_decide.
    + rewrite IH. destruct (decide (k0 = k')) as [-> | ?]; [| done].
      by rewrite decide_False.
Qed.

Lemma lookup_prop_insert_index {A} (n : N) (k k' : string) (x : A)
    (props : list (string * A)) :
  k ∉ props.*1 →
  lookup_prop k' (insert_index n k x props)
  = if decide (k = k') then Some x else lookup_prop k' props.
Proof.
  induction props as [| [k0 y] props IH]; simpl.
  - intros _. by case_decide.
  - intros [Hk0 Hrest]%not_elem_of_cons.
    destruct (index_of_key k0) as [n0 |]; [destruct (n0 <? n)%N |]; simpl;
      try (by case_decide).
    rewrite (IH Hrest). destruct (decide (k0 = k')) as [-> | ?]; [| done].
    by rewrite decide_False.
Qed.

(** A property just defined reads as what it was given; every other name
    reads as before. *)
Lemma lookup_prop_define_property {A} (k k' : string) (x : A)
    (props : list (string * A)) :
  lookup_prop k' (define_property k x props)
  = if decide (k = k') then Some x else lookup_prop k' props.
Proof.
  unfold define_property. case_bool_decide as Hin.
  - apply lookup_prop_set_prop.
  - destruct (index_of_key k); [by apply lookup_prop_insert_index |].
    rewrite lookup_prop_app. simpl.
    destruct (decide (k = k')) as [<- | Hne].
    + by rewrite (proj2 (lookup_prop_None k props) Hin).
    + by destruct (lookup_prop k' props).
Qed.

Lemma setConfig_throw (self self' : BetterJSONSerializer) key v e :
  setConfig key v self = (self', Throw e) → self' = self.
Proof.
  unfold setConfig. destruct (conf_get _ _); [case_decide |]; congruence.
Qed.

Lemma conf_assign_plugins key v (self : BetterJSONSerializer) :
  plugins (conf_assign key v self) = plugins self.
Proof.
  unfold conf_assign. repeat case_match; done.
Qed.

Lemma setConfig_plugins (self self' : BetterJSONSerializer) key v r :
  setConfig key v self = (self', r) → plugins self' = plugins self.
Proof.
  unfold setConfig. destruct (conf_get _ _); [case_decide |];
    intros [= <- <-]; [apply conf_assign_plugins | done | done].
Qed.

(** A write to a name other than [__proto__] makes or updates a property of
    the object: the name then reads as the value written. *)
Lemma conf_get_assign (self : BetterJSONSerializer) key v stored :
  key ≠ "__proto__" →
  conf_get self key = Some stored →
  typeof v = typeof stored →
  conf_get (conf_assign key v self) key = Some v.
Proof.
  intros Hkey. unfold conf_get at 1, conf_assign.
  destruct (decide (key = "allowPluginsOverwrite")) as [-> | H1];
    [intros [= <-]; by destruct v |].
  destruct (decide (key = "serializedObjectIdentifier")) as [-> | H2];
    [intros [= <-]; by destruct v |].
  destruct (decide (key = "defaultIndentation")) as [-> | H3];
    [intros [= <-]; by destruct v |].
  intros _ _.
  rewrite bool_decide_eq_false_2
    by (rewrite !elem_of_cons, elem_of_nil; intuition congruence).
  unfold reaches_accessor. rewrite (bool_decide_eq_false_2 _ Hkey).
  rewrite andb_false_r. unfold conf_get. simpl.
  rewrite !decide_False by done.
  by rewrite lookup_prop_define_property, decide_True.
Qed.

(** Such a write leaves every other name as it reads. *)
Lemma conf_get_assign_other (self : BetterJSONSerializer) key key' v stored :
  key ≠ "__proto__" →
  key' ≠ key →
  conf_get self key = Some stored →
  typeof v = typeof stored →
  conf_get (conf_assign key v self) key' = conf_get self key'.
Proof.
  intros Hkey Hne. unfold conf_get at 2, conf_assign.
  destruct (decide (key = "allowPluginsOverwrite")) as [-> | H1];
    [intros [= <-]; destruct v; try done; intros _;
     unfold conf_get; simpl; repeat case_decide; congruence |].
  destruct (decide (key = "serializedObjectIdentifier")) as [-> | H2];
    [intros [= <-]; destruct v; try done; intros _;
     unfold conf_get; simpl; repeat case_decide; congruence |].
  destruct (decide (key = "defaultIndentation")) as [-> | H3];
    [intros [= <-]; destruct v; try done; intros _;
     unfold conf_get; simpl; repeat case_decide; congruence |].
  intros _ _.
  rewrite bool_decide_eq_false_2
    by (rewrite !elem_of_cons, elem_of_nil; intuition congruence).
  unfold reaches_accessor. rewrite (bool_decide_eq_false_2 _ Hkey).
  rewrite andb_false_r. unfold conf_get. simpl.
  rewrite lookup_prop_define_property.
  by rewrite (decide_False (P := key = key')).
Qed.

(** X1. A call of [setConfig] that succeeds, on any name but [__proto__],
    is read back by [getConfig]: the name reads as the value given, every
    other name reads as before, and the registry is as it was. *)
Theorem setConfig_then_getConfig (self self' : BetterJSONSerializer)
    (key : string) (v : value) :
  plain_prototype self →
  key ≠ "__proto__" →
  setConfig key v self = (self', Ok ()) →
  getConfig (Some key) self' = Ok v
  ∧ (∀ key', key' ≠ key →
       getConfig (Some key') self' = getConfig (Some key') self)
  ∧ plugins self' = plugins self.
Proof.
  intros _ Hkey Hset. split_and!; [| | by eapply setConfig_plugins];
    revert Hset; unfold setConfig;
    destruct (conf_get self key) as [stored |] eqn:Hget; try done;
    (case_decide as Htype; [| done]); intros [= <-].
  - unfold getConfig. by rewrite (conf_get_assign _ _ _ _ Hkey Hget Htype).
  - intros key' Hne. unfold getConfig.
    by rewrite (conf_get_assign_other _ _ _ _ _ Hkey Hne Hget Htype).
Qed.

Lemma setConfig_then_getConfig_witness :
  getConfig (Some "toString")
    (with_conf_added [("toString", VFunction "f" (VStr "conf"))] initial)
  = Ok (VFunction "f" (VStr "conf")).
Proof.
  apply (setConfig_then_getConfig initial
           (with_conf_added [("toString", VFunction "f" (VStr "conf"))] initial)
           "toString" (VFunction "f" (VStr "conf")));
    [reflexivity | discriminate | reflexivity].
Defined.



(** X3. [setConfig] with an object goes through the entries in order and
    does not roll back: when an entry is refused, the call throws what that
    entry throws and the configuration is the one reached after the entries
    before it; the registry is never touched. *)
Theorem setConfig_all_keeps_earlier (self self1 self2 : BetterJSONSerializer)
    (before after : list (string * value)) (key : string) (v : value) (e : exn) :
  setConfig_all before self = (self1, Ok ()) →
  setConfig key v self1 = (self2, Throw e) →
  setConfig_all (before ++ (key, v) :: after) self = (self1, Throw e)
  ∧ plugins self1 = plugins self.
Proof.
  intros Hbefore Hentry. split.
  - unfold setConfig_all in *. rewrite forEach_app, Hbefore. simpl.
    rewrite Hentry. by rewrite (setConfig_throw _ _ _ _ _ Hentry).
  - clear Hentry. revert self Hbefore. unfold setConfig_all.
    induction before as [| [k x] before IH]; intros self; simpl.
    + by intros [= <-].
    + destruct (setConfig k x self) as [self' [[] | e']] eqn:Hk; [| done].
      intros Hrest. rewrite (IH _ Hrest). by eapply setConfig_plugins.
Qed.

Lemma setConfig_all_keeps_earlier_witness :
  setConfig_all [("defaultIndentation", VNum (NFin 2));
                 ("indent", VNum (NFin 4));
                 ("allowPluginsOverwrite", VBool true)] initial
  = (with_conf {| allowPluginsOverwrite := false;
                  serializedObjectIdentifier := "_@serialized-object";
                  defaultIndentation := NFin 2 |} initial,
     Throw (Exn ReferenceError "Configuration property 'indent' does not exist.")).
Proof.
  apply (setConfig_all_keeps_earlier initial
           (with_conf {| allowPluginsOverwrite := false;
                         serializedObjectIdentifier := "_@serialized-object";
                         defaultIndentation := NFin 2 |} initial)
           (with_conf {| allowPluginsOverwrite := false;
                         serializedObjectIdentifier := "_@serialized-object";
                         defaultIndentation := NFin 2 |} initial)
           [("defaultIndentation", VNum (NFin 2))]
           [("allowPluginsOverwrite", VBool true)]
           "indent" (VNum (NFin 4))); reflexivity.
Defined.

Lemma class_name_plain (props : list (string * value)) :
  class_name (plain props) = "Object".
Proof.
  unfold plain, object_reading, class_name.
  destruct (lookup_prop "constructor" props) as [x |]; [| done].
  by destruct (reading_of x).
Qed.

(** What the copy of the configuration holds under a name is what the
    configuration holds. *)
Lemma conf_entries_lookup (self : BetterJSONSerializer) (key : string) :
  lookup_prop key (conf_entries self)
  = if decide (key = "allowPluginsOverwrite")
    then Some (VBool (allowPluginsOverwrite (conf self)))
    else if decide (key = "serializedObjectIdentifier")
    then Some (VStr (serializedObjectIdentifier (conf self)))
    else if decide (key = "defaultIndentation")
    then Some (VNum (defaultIndentation (conf self)))
    else lookup_prop key (conf_added self).
Proof.
  unfold conf_entries.
  rewrite !lookup_prop_app.
  pose proof (lookup_prop_filter (fun k => is_Some (index_of_key k)) key
                (conf_added self)) as Hindices.
  pose proof (lookup_prop_filter (fun k => ¬ is_Some (index_of_key k)) key
                (conf_added self)) as Hothers.
  cbv beta in Hindices, Hothers. rewrite Hindices, Hothers.
  destruct (decide (is_Some (index_of_key key))) as [Hindex | Hindex].
  - rewrite (decide_False (P := ¬ _)) by tauto. simpl.
    assert (Hnot : ∀ k, index_of_key k = None → key ≠ k).
    { intros k Hk ->. rewrite Hk in Hindex. by destruct Hindex. }
    rewrite !(decide_False (P := key = _)) by (by apply Hnot).
    rewrite !(decide_False (P := _ = key)) by (apply not_eq_sym; by apply Hnot).
    by destruct (lookup_prop key (conf_added self)).
  - rewrite (decide_True (P := ¬ _)) by done. simpl.
    repeat (case_decide; simplify_eq; try done).
Qed.

Lemma inherited_value_Object (v : value) (k : string) :
  class_name v = "Object" →
  (∀ l, v ≠ VArr l) →
  inherited_value v k = inherited_value Object_prototype_object k.
Proof.
  intros Hclass Harr. unfold inherited_value. rewrite Hclass.
  repeat case_decide; try done; destruct v; try done; by destruct (Harr elems).
Qed.

(** X4. The two forms of [getConfig] agree on a configuration whose
    prototype has not been replaced: [getConfig(key)] returns a value
    exactly for the keys found on the object [getConfig()] returns, its own
    or inherited, and that value is what the object reads under the key;
    for any other key it throws a [ReferenceError]. *)
Theorem getConfig_key_agrees_with_snapshot (self : BetterJSONSerializer)
    (key : string) :
  conf_prototype self = Object_prototype_object →
  match getConfig (Some key) self with
  | Ok v =>
      has_property key (conf_copy self) = true
      ∧ get (conf_copy self) key = v
      ∧ getConfig None self = Ok (conf_copy self)
  | Throw e =>
      has_property key (conf_copy self) = false
      ∧ ename e = ReferenceError
  end.
Proof.
  intros Hprototype.
  pose proof (conf_entries_lookup self key) as Hlookup.
  pose proof (class_name_plain (conf_entries self)) as Hclass.
  unfold conf_copy. set (props := conf_entries self) in *.
  assert (Hget : conf_get self key
                 = match lookup_prop key props with
                   | Some x => Some x
                   | None =>
                       if bool_decide (key ∈ Object_prototype)
                       then Some (inherited_value Object_prototype_object key)
                       else None
                   end).
  { rewrite Hlookup. unfold conf_get. repeat (case_decide; [done |]).
    destruct (lookup_prop key (conf_added self)); [done |].
    rewrite Hprototype. unfold has_property, reaches_accessor. simpl.
    case_bool_decide as Hin; [| done]. f_equal.
    case_bool_decide as Hproto; [by subst key |].
    unfold get. by simpl. }
  unfold getConfig. rewrite Hget. clear Hget Hlookup.
  unfold conf_copy. fold props. unfold has_property, get, plain in *. simpl.
  destruct (lookup_prop key props) as [x |] eqn:Hx.
  - split_and!; [| done | done].
    apply orb_true_iff. left. apply bool_decide_eq_true.
    destruct (decide (key ∈ props.*1)) as [| Hnot]; [done |].
    apply lookup_prop_None in Hnot. congruence.
  - apply lookup_prop_None in Hx. rewrite (bool_decide_eq_false_2 _ Hx). simpl.
    case_bool_decide as Hin; [| done].
    split_and!; [done | | done].
    by apply inherited_value_Object.
Qed.

Lemma getConfig_key_agrees_with_snapshot_witness :
  has_property "constructor" (conf_copy initial) = true
  ∧ get (conf_copy initial) "constructor" = VFunction "Object" VUndefined
  ∧ getConfig None initial = Ok (conf_copy initial).
Proof.
  apply (getConfig_key_agrees_with_snapshot initial "constructor"). reflexivity.
Defined.

(** ** [use] and [createPlugin] *)

Lemma grown_refl (self : BetterJSONSerializer) : grown self self.
Proof. by split_and!. Qed.

Lemma grown_trans (s1 s2 s3 : BetterJSONSerializer) :
  grown s1 s2 → grown s2 s3 → grown s1 s3.
Proof.
  intros (Hc1 & Hk1 & Hn1 & Ho1) (Hc2 & Hk2 & Hn2 & Ho2). split_and!.
  - congruence.
  - intros k Hk. by apply Hk2, Hk1.
  - intros Hn. by apply Hn2, Hn1.
  - intros Hdeny k p Hp. apply Ho2; [congruence |]. by apply Ho1.
Qed.

Lemma use_plugin_grown (p : Plugin) (self self' : BetterJSONSerializer) r :
  use_plugin p self = (self', r) → grown self self'.
Proof.
  unfold use_plugin. case_match eqn:Hguard; intros [= <- <-];
    [apply grown_refl |].
  split_and!; simpl.
  - done.
  - intros k Hk. rewrite lookup_insert. by case_decide.
  - intros Hnamed k q. rewrite lookup_insert. case_decide as Hk.
    + by intros [= <-].
    + apply Hnamed.
  - intros Hdeny k q Hq. rewrite lookup_insert. case_decide as Hk; [| done].
    subst k. rewrite Hdeny, andb_true_r in Hguard.
    apply bool_decide_eq_false in Hguard. destruct Hguard. by rewrite Hq.
Qed.

Lemma forEach_grown {A} (f : A → BetterJSONSerializer → method ()) (l : list A) :
  Forall (fun x => ∀ self self' r, f x self = (self', r) → grown self self') l →
  ∀ self self' r, forEach f l self = (self', r) → grown self self'.
Proof.
  induction 1 as [| x l Hx _ IH]; intros self self' r; simpl.
  - intros [= <- <-]. apply grown_refl.
  - destruct (f x self) as [self1 [[] | e]] eqn:Hfx.
    + intros Hrest. eapply grown_trans; [by eapply Hx | by eapply IH].
    + intros [= <- <-]. by eapply Hx.
Qed.

(** X5. Whatever [use] is handed (a plugin, arrays of them nested at will,
    something that is no plugin) and whether it returns or throws: the
    configuration is untouched, every identifier that was registered still
    is, every plugin sits under its own name if that was so before, and
    with the overwrite policy disabled no registered plugin is replaced. *)
Theorem use_grows_registry (a : use_argument)
    (self self' : BetterJSONSerializer) (r : result ()) :
  use a self = (self', r) →
  conf self' = conf self
  ∧ (∀ k, is_Some (plugins self !! k) → is_Some (plugins self' !! k))
  ∧ (named_by_key (plugins self) → named_by_key (plugins self'))
  ∧ (allowPluginsOverwrite (conf self) = false →
     ∀ k p, plugins self !! k = Some p → plugins self' !! k = Some p).
Proof.
  change (use a self = (self', r) → grown self self').
  revert self self' r.
  induction a as [p | l IH |] using use_argument_nested_ind;
    intros self self' r; simpl.
  - apply use_plugin_grown.
  - by apply forEach_grown.
  - intros [= <- <-]. apply grown_refl.
Qed.

Lemma use_grows_registry_witness :
  plugins (with_plugins (<["infinity" := sample_infinity]> {[ "Set" := sample_Set ]})
                        initial) !! "Set" = Some sample_Set.
Proof.
  destruct (use_grows_registry
              (APlugins [APlugins [APlugin sample_infinity; APlugin sample_Set_size];
                         APlugin sample_Number])
              with_Set
              (with_plugins (<["infinity" := sample_infinity]> {[ "Set" := sample_Set ]})
                            initial)
              (Throw (duplicate_plugin "Set")))
    as (_ & _ & _ & Hkept); [reflexivity |].
  apply Hkept; reflexivity.
Defined.

(** X6. Arrays handed to [use] may be nested at will: an array inside an
    array is gone through in place, and an array of one argument is that
    argument. *)
Theorem use_nested_arrays (self : BetterJSONSerializer) :
  (∀ l1 l2, use (APlugins (APlugins l1 :: l2)) self = use (APlugins (l1 ++ l2)) self)
  ∧ (∀ a, use (APlugins [a]) self = use a self).
Proof.
  split.
  - intros l1 l2. simpl. rewrite forEach_app.
    by destruct (forEach use l1 self) as [self1 [[] | e]].
  - intros a. simpl. by destruct (use a self) as [self1 [[] | e]].
Qed.



(** ** [stringify] and [parse] without plugin *)

Lemma serialize_elements_ext (f g : string → value → result (option json)) i l :
  (∀ key v, f key v = g key v) →
  serialize_elements f i l = serialize_elements g i l.
Proof.
  intros Hfg. revert i. induction l as [| x l IH]; intros i; simpl; [done |].
  by rewrite Hfg, IH.
Qed.

Lemma serialize_members_ext (f g : string → value → result (option json)) props :
  (∀ key v, f key v = g key v) →
  serialize_members f props = serialize_members g props.
Proof.
  intros Hfg. induction props as [| [k x] props IH]; simpl; [done |].
  by rewrite Hfg, IH.
Qed.

(** The traversal only depends on what the replacer answers. *)
Lemma SerializeJSONProperty_ext (r1 r2 : hook) fuel key val :
  (∀ k v, r1 k v = r2 k v) →
  SerializeJSONProperty fuel r1 key val = SerializeJSONProperty fuel r2 key val.
Proof.
  intros Hr. revert key val.
  induction fuel as [| fuel IH]; intros key val; simpl; [done |].
  rewrite Hr. destruct (r2 key (apply_toJSON val)) as [v | e]; simpl; [| done].
  destruct v as [| | | [] | | | l | c props | | |]; try done.
  - by rewrite (serialize_elements_ext _ _ _ _ IH).
  - by rewrite (serialize_members_ext _ _ _ IH).
Qed.

(** X8. With no plugin registered and no replacer, [stringify] is
    [JSON.stringify] but for one thing: reading the name of the constructor,
    it throws on an object whose [constructor] is [null] or [undefined]. For
    every value and every depth of the call stack it gives the same
    document, or the same failure under the one of [stringify]. *)
Theorem stringify_without_plugins (self : BetterJSONSerializer)
    (fuel : nat) (v : value) :
  plugins self = ∅ →
  stringify fuel self v None
  = try_catch (JSON_stringify fuel v constructor_check) stringify_failed.
Proof.
  intros Hempty. unfold stringify, JSON_stringify. f_equal.
  apply SerializeJSONProperty_ext. intros k x.
  unfold stringify_visitor, constructor_check. simpl.
  destruct (constructorName x); [| done | done].
  by rewrite Hempty, lookup_empty.
Qed.

Lemma stringify_without_plugins_witness :
  stringify 3 initial
    (VArr [a_Set [VStr "a"]; VNum NNaN; plain [("constructor", VNull)]]) None
  = try_catch
      (JSON_stringify 3
         (VArr [a_Set [VStr "a"]; VNum NNaN; plain [("constructor", VNull)]])
         constructor_check)
      stringify_failed.
Proof.
  apply (stringify_without_plugins initial 3). reflexivity.
Defined.



(** X10. What JSON cannot hold and no plugin claims is lost without error:
    not-a-number and the infinities come back as [null]; a host object
    without [toJSON] comes back as an empty object, when the marker key is
    no name that objects inherit; [undefined] is written as no text at all,
    which [parse] then refuses. *)
Theorem unclaimed_values_are_lost (self : BetterJSONSerializer) (fuel : nat) :
  (plugins self !! "nan" = None →
     round_trip (S fuel) self (VNum NNaN) = Ok VNull)
  ∧ (plugins self !! "infinity" = None →
     round_trip (S fuel) self (VNum NInfinity) = Ok VNull)
  ∧ (plugins self !! "Number" = None →
     round_trip (S fuel) self (VNum NNegInfinity) = Ok VNull)
  ∧ (∀ c slots,
       plugins self !! c = None →
       serializedObjectIdentifier (conf self) ∉ Object_prototype →
       round_trip (S fuel) self (VHost c slots None) = Ok (plain []))
  ∧ (plugins self !! "undefined" = None →
     stringify (S fuel) self VUndefined None = Ok None
     ∧ ∃ e, round_trip (S fuel) self VUndefined = Throw e
            ∧ ename e = EvalError).
Proof.
  unfold round_trip, stringify, JSON_stringify.
  split_and!.
  - intros H. rewrite SerializeJSONProperty_step.
    by rewrite (stringify_visitor_unclaimed _ _ _
                  (unclaimed_named self (VNum NNaN) "nan" eq_refl H)).
  - intros H. rewrite SerializeJSONProperty_step.
    by rewrite (stringify_visitor_unclaimed _ _ _
                  (unclaimed_named self (VNum NInfinity) "infinity" eq_refl H)).
  - intros H. rewrite SerializeJSONProperty_step.
    by rewrite (stringify_visitor_unclaimed _ _ _
                  (unclaimed_named self (VNum NNegInfinity) "Number" eq_refl H)).
  - intros c slots H Hmarker. rewrite SerializeJSONProperty_step.
    rewrite (stringify_visitor_unclaimed _ _ _
               (unclaimed_named self (VHost c slots None) c eq_refl H)).
    cbn [mbind result_bind try_catch text_of].
    unfold parse, JSON_parse.
    change (internalize (parse_visitor self None) "" (from_json (JObj [])))
      with (parse_visitor self None "" (plain [])).
    rewrite parse_visitor_raw; [done |].
    unfold not_serialized, has_property. simpl.
    by rewrite (bool_decide_eq_false_2 _ Hmarker).
  - intros H. rewrite SerializeJSONProperty_step.
    rewrite (stringify_visitor_unclaimed _ _ _
               (unclaimed_named self VUndefined "undefined" eq_refl H)).
    simpl. eauto.
Qed.

Lemma unclaimed_values_are_lost_witness :
  round_trip 1 initial (a_Set [VStr "a"; VStr "b"]) = Ok (plain []).
Proof.
  destruct (unclaimed_values_are_lost initial 0) as (_ & _ & _ & Hhost & _).
  apply Hhost; [reflexivity |].
  apply (bool_decide_eq_false_1 ("_@serialized-object" ∈ Object_prototype)).
  reflexivity.
Defined.

(** X11. An object with a [toJSON] method is seen by [stringify] as what
    the method returns: it is classified, encoded and written as that value,
    so that a plugin registered under the object's own constructor name is
    not consulted for it. *)
Theorem toJSON_comes_first (self : BetterJSONSerializer) (fuel : nat)
    (replacer : option hook) (c : string) (slots t : value) :
  apply_toJSON t = t →
  stringify fuel self (VHost c slots (Some t)) replacer
  = stringify fuel self t replacer.
Proof.
  intros Ht. unfold stringify, JSON_stringify.
  destruct fuel as [| fuel]; [done |].
  cbn [SerializeJSONProperty]. by rewrite Ht.
Qed.

Lemma toJSON_comes_first_witness :
  stringify 1 (with_plugins {[ "Date" := sample_broken ]} initial)
    (VHost "Date" (VNum (NFin 0)) (Some (VStr "1970-01-01T00:00:00.000Z"))) None
  = Ok (Some (JStr "1970-01-01T00:00:00.000Z")).
Proof.
  rewrite (toJSON_comes_first _ 1 None "Date" (VNum (NFin 0))
             (VStr "1970-01-01T00:00:00.000Z")); reflexivity.
Defined.

(** ** Plugins for the envelope's own nodes *)

Lemma number_plugin_overflow (self : BetterJSONSerializer) (p : Plugin) :
  plugins self !! "Number" = Some p →
  plugins self !! "Object" = None →
  (∀ key z, ∃ sv, serialize p key (VNum (NFin z)) = Ok sv) →
  ∀ fuel,
    (∀ key z,
       SerializeJSONProperty fuel (stringify_visitor self None) key (VNum (NFin z))
       = Throw stack_overflow)
    ∧ (∀ key (type : string) sv,
         SerializeJSONProperty fuel (stringify_visitor self None) key
           (plain [("version", VNum (NFin 1)); ("type", VStr type); ("value", sv)])
         = Throw stack_overflow).
Proof.
  intros Hp HObject Htotal.
  induction fuel as [| fuel [IHnum IHobj]]; [done |]. split.
  - intros key z. destruct (Htotal key z) as [sv Hsv].
    rewrite SerializeJSONProperty_step. cbn [apply_toJSON].
    rewrite (stringify_visitor_claimed self key (VNum (NFin z)) "Number" p sv
               eq_refl Hp Hsv).
    unfold envelope, plain at 1. cbn [mbind result_bind serialize_members].
    by rewrite IHobj.
  - intros key type sv.
    set (fields := [("version", VNum (NFin 1)); ("type", VStr type); ("value", sv)]).
    assert (Hvisitor : stringify_visitor self None key (plain fields)
                       = Ok (plain fields)).
    { apply stringify_visitor_unclaimed. by apply (unclaimed_named _ _ "Object"). }
    rewrite SerializeJSONProperty_step.
    change (apply_toJSON (plain fields)) with (plain fields). rewrite Hvisitor.
    unfold plain, fields. cbn [mbind result_bind serialize_members].
    by rewrite IHnum.
Qed.

(** X12. A plugin registered for ["Number"] cannot work: the envelope it
    leads to holds the version, a number, which is wrapped in turn, and so
    on. However deep the call stack, [stringify] of a number ends in an
    [EvalError], whatever the plugin returns. *)
Theorem number_plugin_never_returns (self : BetterJSONSerializer) (p : Plugin)
    (fuel : nat) (z : Z) :
  plugins self !! "Number" = Some p →
  plugins self !! "Object" = None →
  (∀ key z', ∃ sv, serialize p key (VNum (NFin z')) = Ok sv) →
  ∃ e, stringify fuel self (VNum (NFin z)) None = Throw e
       ∧ ename e = EvalError.
Proof.
  intros Hp HObject Htotal. unfold stringify, JSON_stringify.
  destruct (number_plugin_overflow self p Hp HObject Htotal fuel) as [Hnum _].
  rewrite Hnum. simpl. eauto.
Qed.

Lemma number_plugin_never_returns_witness :
  ∃ e, stringify 50 (with_plugins {[ "Number" := sample_Number ]} initial)
         (VNum (NFin 5)) None = Throw e
       ∧ ename e = EvalError.
Proof.
  apply (number_plugin_never_returns _ sample_Number 50 5);
    [reflexivity | reflexivity |].
  intros key z'. exists (VNum (NFin z')). reflexivity.
Defined.

Lemma object_plugin_overflow (self : BetterJSONSerializer) (q : Plugin) :
  plugins self !! "Object" = Some q →
  (∀ key v, constructorName v = "Object" → ∃ sv, serialize q key v = Ok sv) →
  ∀ fuel key (type : string) sv,
    SerializeJSONProperty fuel (stringify_visitor self None) key
      (plain [("version", VNum (NFin 1)); ("type", VStr type); ("value", sv)])
    = Throw stack_overflow.
Proof.
  intros Hq Htotal.
  induction fuel as [| fuel IH]; intros key type sv; [done |].
  set (fields := [("version", VNum (NFin 1)); ("type", VStr type); ("value", sv)]).
  destruct (Htotal key (plain fields) eq_refl) as [sv' Hsv'].
  rewrite SerializeJSONProperty_step.
  change (apply_toJSON (plain fields)) with (plain fields).
  rewrite (stringify_visitor_claimed self key (plain fields) "Object" q sv'
             eq_refl Hq Hsv').
  unfold envelope, plain at 1. cbn [mbind result_bind serialize_members].
  by rewrite IH.
Qed.

(** X13. A plugin registered for ["Object"] that accepts every object
    disables every plugin, itself included: what an envelope holds under
    the marker key is an object, so the envelope of any value a plugin
    encodes is wrapped again without end, and [stringify] ends in an
    [EvalError] however deep the call stack. *)
Theorem object_plugin_disables_plugins (self : BetterJSONSerializer)
    (q p : Plugin) (fuel : nat) (v sv : value) (type : string) :
  plugins self !! "Object" = Some q →
  (∀ key x, constructorName x = "Object" → ∃ sv', serialize q key x = Ok sv') →
  constructorName (apply_toJSON v) = type →
  plugins self !! type = Some p →
  serialize p "" (apply_toJSON v) = Ok sv →
  ∃ e, stringify fuel self v None = Throw e ∧ ename e = EvalError.
Proof.
  intros Hq Htotal Hv Hp Hsv. unfold stringify, JSON_stringify.
  destruct fuel as [| fuel]; [simpl; eauto |].
  rewrite SerializeJSONProperty_step.
  rewrite (stringify_visitor_claimed _ _ _ _ _ _ Hv Hp Hsv).
  unfold envelope, plain at 1. cbn [mbind result_bind serialize_members].
  rewrite (object_plugin_overflow self q Hq Htotal). simpl. eauto.
Qed.

Lemma object_plugin_disables_plugins_witness :
  ∃ e, stringify 40
         (with_plugins (<["Object" := {| name := "Object";
                                         serialize := fun _ v => Ok v;
                                         deserialize := fun _ v => Ok v |}]>
                          {[ "Set" := sample_Set ]}) initial)
         (a_Set [VStr "a"]) None = Throw e
       ∧ ename e = EvalError.
Proof.
  apply (object_plugin_disables_plugins _
           {| name := "Object";
              serialize := fun _ v => Ok v;
              deserialize := fun _ v => Ok v |}
           sample_Set 40 (a_Set [VStr "a"]) (VArr [VStr "a"]) "Set");
    try reflexivity.
  intros key x _. eexists. reflexivity.
Defined.

(** ** Failures of [parse] *)

(** X14. A plugin whose [deserialize] throws on an envelope of version 1:
    wherever the walk meets the envelope, the whole parse ends with the
    plugin's failure, its message chained under the type and under the
    failure of [parse]; the reviver is not called. *)
Theorem deserialize_failure_aborts (self : BetterJSONSerializer)
    (reviver : option hook) (j : json) (k : string) (v : value) (p : Plugin)
    (e : exn) :
  visits (parse_visitor self reviver) "" (from_json j) k v →
  envelope_shaped self v →
  destructurable (get v (serializedObjectIdentifier (conf self))) →
  plugins_get (plugins self)
    (get (get v (serializedObjectIdentifier (conf self))) "type") = Some p →
  get (get v (serializedObjectIdentifier (conf self))) "version" = VNum (NFin 1) →
  deserialize p k (get (get v (serializedObjectIdentifier (conf self))) "value")
    = Throw e →
  parse self (Doc j) reviver
  = Throw (parse_failed
             (deserialize_failed
                (get (get v (serializedObjectIdentifier (conf self))) "type") e)).
Proof.
  intros Hvisit Henv%not_serialized_false Hinner Hp Hver He.
  unfold parse, JSON_parse.
  rewrite (visits_throw _ _ _ _ _
             (deserialize_failed
                (get (get v (serializedObjectIdentifier (conf self))) "type") e)
             Hvisit); [done |].
  rewrite parse_visitor_envelope by done. simpl.
  by rewrite Hp, Hver, He.
Qed.

Lemma deserialize_failure_aborts_witness :
  parse (with_plugins {[ "Broken" := sample_broken ]} initial)
    (Doc (JObj [("a", envelope_doc 1 "Broken" JNull)]))
    (Some (fun _ _ => Ok VNull))
  = Throw (Exn EvalError
      ("Error while parsing object." ++ LF ++ LF ++
       "Error while deserializing type 'Broken'." ++ LF ++ LF ++ "cannot rebuild")).
Proof.
  apply (deserialize_failure_aborts
           (with_plugins {[ "Broken" := sample_broken ]} initial)
           (Some (fun _ _ => Ok VNull))
           (JObj [("a", envelope_doc 1 "Broken" JNull)]) "a"
           (from_json (envelope_doc 1 "Broken" JNull)) sample_broken
           (Exn Error "cannot rebuild")).
  - apply (visits_member _ "" "Object" [] "a" _ [] []); [reflexivity |].
    apply visits_plain. reflexivity.
  - split_and!; [reflexivity | discriminate | reflexivity].
  - split; discriminate.
  - reflexivity.
  - reflexivity.
  - reflexivity.
Defined.

(** X15. An object whose only property is the marker key holding [null]
    cannot be taken apart: wherever the walk meets it, the whole parse
    fails with an [EvalError], whatever the registry and the reviver. *)
Theorem null_under_marker_aborts (self : BetterJSONSerializer)
    (reviver : option hook) (j : json) (k : string) (v : value) :
  visits (parse_visitor self reviver) "" (from_json j) k v →
  envelope_shaped self v →
  get v (serializedObjectIdentifier (conf self)) = VNull →
  ∃ e, parse self (Doc j) reviver = Throw e ∧ ename e = EvalError.
Proof.
  intros Hvisit Henv%not_serialized_false Hnull.
  unfold parse, JSON_parse.
  rewrite (visits_throw _ _ _ _ _ (cannot_destructure VNull) Hvisit).
  - simpl. eauto.
  - unfold parse_visitor. by rewrite Henv, Hnull.
Qed.

Lemma null_under_marker_aborts_witness :
  ∃ e, parse initial (Doc (JArr [JObj [("_@serialized-object", JNull)]])) None
       = Throw e
       ∧ ename e = EvalError.
Proof.
  apply (null_under_marker_aborts initial None
           (JArr [JObj [("_@serialized-object", JNull)]]) "0"
           (plain [("_@serialized-object", VNull)])).
  - apply (visits_element _ "" [] _ [] []); [reflexivity |].
    apply visits_plain. reflexivity.
  - split_and!; [reflexivity | discriminate | reflexivity].
  - reflexivity.
Defined.

(** ** Order of registration *)

(** X16. With the overwrite policy enabled, registering two plugins of
    different names gives the same instance in either order, and registering
    a plugin twice is registering it once. *)
Theorem use_order_under_overwrite (self : BetterJSONSerializer) (p q : Plugin) :
  allowPluginsOverwrite (conf self) = true →
  (name p ≠ name q →
     use (APlugins [APlugin p; APlugin q]) self
     = use (APlugins [APlugin q; APlugin p]) self)
  ∧ use (APlugins [APlugin p; APlugin p]) self = use (APlugin p) self.
Proof.
  intros Hallow. split; [intros Hne |]; simpl;
    rewrite !(use_plugin_overwrite _ self Hallow);
    rewrite !use_plugin_overwrite by done; simpl;
    unfold with_plugins; simpl; do 2 f_equal.
  - by apply insert_insert_ne.
  - apply insert_insert_eq.
Qed.

Lemma use_order_under_overwrite_witness :
  use (APlugins [APlugin sample_Set; APlugin sample_Set])
      (with_conf {| allowPluginsOverwrite := true;
                    serializedObjectIdentifier := "_@serialized-object";
                    defaultIndentation := NFin 0 |} initial)
  = use (APlugin sample_Set)
      (with_conf {| allowPluginsOverwrite := true;
                    serializedObjectIdentifier := "_@serialized-object";
                    defaultIndentation := NFin 0 |} initial).
Proof.
  destruct (use_order_under_overwrite
              (with_conf {| allowPluginsOverwrite := true;
                            serializedObjectIdentifier := "_@serialized-object";
                            defaultIndentation := NFin 0 |} initial)
              sample_Set sample_Set) as [_ Htwice]; [reflexivity |].
  exact Htwice.
Defined.
